(** * merge_package_json: a shallow embedding of bin/merge_package_json.py

    The Python module deep-merges package.json documents and reconciles
    npm version ranges.  The embedding follows the module function by
    function.  Python values are dynamically typed, so every function that
    can be reached with an arbitrary JSON value takes a [pyvalue] and returns
    in the [result] monad, whose failures are the Python exceptions the
    code can raise.

    The third-party package semantic_version (NpmSpec, Range, Version) is
    not part of the module; it enters through the interface [SemverLib].
    JSON numbers are integers here; floating point numbers are left out.
    Strings are sequences of code points below 256. *)

From Stdlib Require Import String Ascii List ZArith Bool Lia.
From Stdlib Require Import Sorting.Permutation Sorting.Sorted OrderedTypeEx.
Import ListNotations.
Open Scope string_scope.
Open Scope list_scope.

Set Implicit Arguments.
Set Warnings "-register-all".


(** ** Exceptions and the result monad *)

Inductive exn : Type :=
| ValueError
| AttributeError
| TypeError
| IndexError
| OSError.

Inductive result (A : Type) : Type :=
| Ok (a : A)
| Raise (e : exn).

Arguments Ok {A} a.
Arguments Raise {A} e.

Definition bind {A B : Type} (m : result A) (k : A -> result B) : result B :=
  match m with
  | Ok a => k a
  | Raise e => Raise e
  end.

Declare Scope result_scope.
Delimit Scope result_scope with result.
Notation "x <- m ;; k" := (bind m (fun x => k))
  (at level 61, m at next level, right associativity) : result_scope.
Open Scope result_scope.

(** [except (ValueError, AttributeError)]: the two exception classes the
    module catches; every other exception propagates. *)
Definition caught (e : exn) : bool :=
  match e with
  | ValueError | AttributeError => true
  | TypeError | IndexError | OSError => false
  end.

(** [try: body / except (ValueError, AttributeError): handler]. *)
Definition try_except {A : Type} (body handler : result A) : result A :=
  match body with
  | Ok a => Ok a
  | Raise e => if caught e then handler else Raise e
  end.

(** ** Python string operations used by the module *)

Module PyStr.

(** [needle in hay] on two strings. *)
Fixpoint contains (needle hay : string) : bool :=
  prefix needle hay
  || match hay with
     | EmptyString => false
     | String _ rest => contains needle rest
     end.

(** [s.replace(a, b)] for one-character [a] and [b]. *)
Fixpoint replace_char (a b : ascii) (s : string) : string :=
  match s with
  | EmptyString => EmptyString
  | String c rest =>
      String (if Ascii.eqb c a then b else c) (replace_char a b rest)
  end.

(** [str.isspace] on one code point below 256. *)
Definition is_space (c : ascii) : bool :=
  let n := nat_of_ascii c in
  (((9 <=? n) && (n <=? 13)) || ((28 <=? n) && (n <=? 32))
   || (n =? 133) || (n =? 160))%nat.

Fixpoint lstrip (s : string) : string :=
  match s with
  | EmptyString => EmptyString
  | String c rest => if is_space c then lstrip rest else s
  end.

(** [rstrip] keeps a character when it is not a space or when something
    that is kept follows it. *)
Fixpoint rstrip (s : string) : string :=
  match s with
  | EmptyString => EmptyString
  | String c rest =>
      match rstrip rest with
      | EmptyString => if is_space c then EmptyString else String c EmptyString
      | kept => String c kept
      end
  end.

(** [s.strip()]. *)
Definition strip (s : string) : string := rstrip (lstrip s).

(** [s.split(sep)[0]]: the text before the first occurrence of [sep]
    (all of [s] when [sep] does not occur); [sep] is not empty. *)
Fixpoint before_first (sep s : string) : string :=
  if prefix sep s then EmptyString
  else match s with
       | EmptyString => EmptyString
       | String c rest => String c (before_first sep rest)
       end.

Fixpoint take_token (s : string) : string :=
  match s with
  | EmptyString => EmptyString
  | String c rest => if is_space c then EmptyString else String c (take_token rest)
  end.

(** [s.split()[0]]: the first whitespace-delimited token; IndexError when
    [s] holds no token. *)
Definition first_token (s : string) : result string :=
  match lstrip s with
  | EmptyString => Raise IndexError
  | t => Ok (take_token t)
  end.

(** [re.sub(r"^[\^~>=<]+", "", s)]: drop the leading operator characters. *)
Definition is_op_char (c : ascii) : bool :=
  existsb (Ascii.eqb c) ["^"; "~"; ">"; "="; "<"]%char.

Fixpoint strip_operators (s : string) : string :=
  match s with
  | EmptyString => EmptyString
  | String c rest => if is_op_char c then strip_operators rest else s
  end.

(** [sep.join(parts)]. *)
Fixpoint join (sep : string) (parts : list string) : string :=
  match parts with
  | [] => EmptyString
  | [p] => p
  | p :: rest => p ++ sep ++ join sep rest
  end.

(** [list(s)]: the one-character strings of [s]. *)
Fixpoint chars (s : string) : list string :=
  match s with
  | EmptyString => []
  | String c rest => String c EmptyString :: chars rest
  end.

End PyStr.

(** ** JSON values and insertion-ordered dictionaries *)

Inductive pyvalue : Type :=
| VNone
| VBool (b : bool)
| VInt (n : Z)
| VStr (s : string)
| VList (items : list pyvalue)
| VDict (entries : list (string * pyvalue)).

(** A Python [dict] with string keys: an association list in insertion
    order, keys unique. *)
Definition dict (A : Type) : Type := list (string * A).

Section Dict.
Context {A : Type}.

(** [d[k]] / [d.get(k)]. *)
Fixpoint dict_get (k : string) (d : dict A) : option A :=
  match d with
  | [] => None
  | (k', v) :: rest => if String.eqb k k' then Some v else dict_get k rest
  end.

(** [k in d]. *)
Definition dict_mem (k : string) (d : dict A) : bool :=
  match dict_get k d with
  | Some _ => true
  | None => false
  end.

(** [d[k] = v]: an existing key keeps its position, a new key goes last. *)
Fixpoint dict_set (k : string) (v : A) (d : dict A) : dict A :=
  match d with
  | [] => [(k, v)]
  | (k', v') :: rest =>
      if String.eqb k k' then (k', v) :: rest else (k', v') :: dict_set k v rest
  end.

(** [list(d.keys())]. *)
Definition dict_keys (d : dict A) : list string := map fst d.

(** [list(d.values())]. *)
Definition dict_values (d : dict A) : list A := map snd d.

End Dict.

(** ** Stable sorting

    [sorted] is a stable sort that compares with [<] only.  On a list
    whose elements can all be compared, every such sort returns the list
    that insertion from the right builds. *)

Section InsertionSort.
Context {A : Type} (lt : A -> A -> bool).

(** [x] goes in front of the first element that is not less than it. *)
Fixpoint insert_by (x : A) (l : list A) : list A :=
  match l with
  | [] => [x]
  | y :: rest => if lt y x then y :: insert_by x rest else x :: y :: rest
  end.

Definition sort_by (l : list A) : list A := fold_right insert_by [] l.

(** [a] may stand in front of [b]: [a < b], or at least not [b < a]. *)
Definition not_after (a b : A) : Prop := lt a b = true \/ lt b a = false.

End InsertionSort.

(** ** Python's dynamic operations on JSON values *)

Module Py.

(** [a == b].  [True == 1] and [False == 0]; dictionaries compare without
    regard to order. *)
Fixpoint eq (a b : pyvalue) {struct a} : bool :=
  match a, b with
  | VNone, VNone => true
  | VBool x, VBool y => Bool.eqb x y
  | VBool x, VInt y => Z.eqb (Z.b2z x) y
  | VInt x, VBool y => Z.eqb x (Z.b2z y)
  | VInt x, VInt y => Z.eqb x y
  | VStr x, VStr y => String.eqb x y
  | VList xs, VList ys =>
      (fix go (xs ys : list pyvalue) {struct xs} : bool :=
         match xs, ys with
         | [], [] => true
         | x :: xs', y :: ys' => eq x y && go xs' ys'
         | _, _ => false
         end) xs ys
  | VDict xs, VDict ys =>
      Nat.eqb (length xs) (length ys)
      && (fix go (xs : list (string * pyvalue)) {struct xs} : bool :=
            match xs with
            | [] => true
            | (k, x) :: xs' =>
                match dict_get k ys with
                | Some y => eq x y
                | None => false
                end && go xs'
            end) xs
  | _, _ => false
  end.

(** [a < b]: defined between two numbers, two strings and two lists
    (lexicographically); TypeError for every other pair of types. *)
Fixpoint lt (a b : pyvalue) {struct a} : result bool :=
  match a, b with
  | VBool x, VBool y => Ok (Z.ltb (Z.b2z x) (Z.b2z y))
  | VBool x, VInt y => Ok (Z.ltb (Z.b2z x) y)
  | VInt x, VBool y => Ok (Z.ltb x (Z.b2z y))
  | VInt x, VInt y => Ok (Z.ltb x y)
  | VStr x, VStr y => Ok (String.ltb x y)
  | VList xs, VList ys =>
      (fix go (xs ys : list pyvalue) {struct xs} : result bool :=
         match xs, ys with
         | [], [] => Ok false
         | [], _ :: _ => Ok true
         | _ :: _, [] => Ok false
         | x :: xs', y :: ys' => if eq x y then go xs' ys' else lt x y
         end) xs ys
  | _, _ => Raise TypeError
  end.

(** [a < b] when the comparison is defined and true. *)
Definition ltb (a b : pyvalue) : bool :=
  match lt a b with
  | Ok r => r
  | Raise _ => false
  end.

Definition comparable (a b : pyvalue) : bool :=
  match lt a b, lt b a with
  | Ok _, Ok _ => true
  | _, _ => false
  end.

(** Every two elements at different positions can be compared. *)
Fixpoint all_comparable (l : list pyvalue) : bool :=
  match l with
  | [] => true
  | x :: rest => forallb (comparable x) rest && all_comparable rest
  end.

(** [sorted(l)].  The sort is stable and uses [<] only; it raises
    TypeError when a comparison it performs does.  Which pairs Python
    compares is an implementation detail, so the model raises when some
    pair of elements cannot be compared.  On JSON scalars the two agree:
    a comparison succeeds between two numbers and between two strings
    only, and no sort can order its input without comparing some number
    or string with an element outside of its class when there is one. *)
Definition sorted (l : list pyvalue) : result (list pyvalue) :=
  if all_comparable l then Ok (sort_by ltb l) else Raise TypeError.

(** [hash(v)] is defined. *)
Definition hashable (v : pyvalue) : bool :=
  match v with
  | VList _ | VDict _ => false
  | _ => true
  end.

(** The elements of [set(l)], each equality class represented by its
    first occurrence. *)
Fixpoint dedup (l : list pyvalue) : list pyvalue :=
  match l with
  | [] => []
  | x :: rest => x :: filter (fun y => negb (eq x y)) (dedup rest)
  end.

(** [list(set(l))]: TypeError when an element is unhashable.  Python
    iterates a set in hash order; the module sorts the outcome, which
    makes the order chosen here immaterial ([sorted_of_set_order]). *)
Definition list_set (l : list pyvalue) : result (list pyvalue) :=
  if forallb hashable l then Ok (dedup l) else Raise TypeError.

(** [v in (s1, s2, ...)] for a tuple of strings. *)
Definition in_strs (v : pyvalue) (strs : list string) : bool :=
  match v with
  | VStr s => existsb (String.eqb s) strs
  | _ => false
  end.

(** [needle in v] for a string [needle]: substring of a string, element
    of a list, key of a dictionary; TypeError on the other types. *)
Definition str_in (needle : string) (v : pyvalue) : result bool :=
  match v with
  | VStr s => Ok (PyStr.contains needle s)
  | VList items => Ok (existsb (eq (VStr needle)) items)
  | VDict entries => Ok (dict_mem needle entries)
  | VNone | VBool _ | VInt _ => Raise TypeError
  end.

(** [any(needle in v for needle in needles)]. *)
Fixpoint any_in (needles : list string) (v : pyvalue) : result bool :=
  match needles with
  | [] => Ok false
  | n :: rest =>
      found <- str_in n v ;;
      if found then Ok true else any_in rest v
  end.

(** [v.replace("x", "0").replace("X", "0")]. *)
Definition replace_wildcards (v : pyvalue) : result pyvalue :=
  match v with
  | VStr s => Ok (VStr (PyStr.replace_char "X" "0" (PyStr.replace_char "x" "0" s)))
  | _ => Raise AttributeError
  end.

(** [sorted(v)] for an arbitrary value: a list is sorted, a string gives
    its sorted characters, a dictionary its sorted keys. *)
Definition sorted_value (v : pyvalue) : result (list pyvalue) :=
  match v with
  | VList items => sorted items
  | VStr s => sorted (map VStr (PyStr.chars s))
  | VDict entries => sorted (map VStr (dict_keys entries))
  | VNone | VBool _ | VInt _ => Raise TypeError
  end.

(** The strings of a list of values; TypeError when one is not a string
    (as [str.join] raises). *)
Fixpoint all_strs (l : list pyvalue) : result (list string) :=
  match l with
  | [] => Ok []
  | VStr s :: rest => ss <- all_strs rest ;; Ok (s :: ss)
  | _ :: _ => Raise TypeError
  end.

(** [sep.join(l)]. *)
Definition join (sep : string) (l : list pyvalue) : result string :=
  ss <- all_strs l ;; Ok (PyStr.join sep ss).

End Py.

(** ** The semantic_version interface *)

(** The clause tree of a parsed range.  [AllOf] and [AnyOf] hold their
    sub-clauses in a frozenset; the list gives them in the order Python
    iterates that set.  The target of a [Range] is a [Version]. *)
Section Clauses.
Variable V : Type.

Inductive Clause : Type :=
| Never
| Always
| Range (operator : string) (target : V)
| AllOf (clauses : list Clause)
| AnyOf (clauses : list Clause).

(** The nested helper [find_first_range] of [get_operator_from_range] and
    [_search_spec_clause_for_version]: the first [Range] met when walking
    the iterable nodes depth first. *)
Fixpoint find_first_range (obj : Clause) : option (string * V) :=
  match obj with
  | Range op target => Some (op, target)
  | AllOf cs | AnyOf cs =>
      (fix go (cs : list Clause) : option (string * V) :=
         match cs with
         | [] => None
         | c :: rest =>
             match find_first_range c with
             | Some r => Some r
             | None => go rest
             end
         end) cs
  | Never | Always => None
  end.

End Clauses.

Arguments Never {V}.
Arguments Always {V}.

(** What the module uses of semantic_version: [Version(s)] and
    [NpmSpec(s)] return [None] where the package raises ValueError;
    [Version_gt a b] is [a > b]. *)
Class SemverLib : Type := {
  Version : Type;
  Version_of_str : string -> option Version;
  Version_gt : Version -> Version -> bool;
  NpmSpec : string -> option (Clause Version)
}.

(** Every range the parser accepts holds a primitive comparison: the npm
    parser builds an [AllOf] of at least one [Range] for each [||] group. *)
Definition NpmSpec_has_range (L : SemverLib) : Prop :=
  forall s c, NpmSpec s = Some c -> find_first_range c <> None.

(** ** Module constants *)

Definition DEPENDENCY_KEYS : list string :=
  ["dependencies"; "devDependencies"; "peerDependencies";
   "optionalDependencies"; "bundledDependencies"; "bundleDependencies"].

Definition PREFIX_PRIORITY : dict Z :=
  [("^", 4%Z); ("~", 3%Z); (">=", 2%Z); (">", 1%Z);
   ("=", 0%Z); ("<=", 0%Z); ("<", 0%Z)].

Definition SPECIAL_PROTOCOLS : list string :=
  ["workspace:"; "git+"; "http://"; "https://"; "file:"; "github:"].

(** [key in DEPENDENCY_KEYS]. *)
Definition is_dependency_key (key : string) : bool :=
  existsb (String.eqb key) DEPENDENCY_KEYS.

(** [PREFIX_PRIORITY.get(op, 0)]. *)
Definition priority (op : string) : Z :=
  match dict_get op PREFIX_PRIORITY with
  | Some p => p
  | None => 0%Z
  end.

(** ** The version-range functions *)

Section Ranges.
Context {L : SemverLib}.

(** [NpmSpec(v)]: the clause of the parsed range.  ValueError when the
    string is not a range; a non-string has no [split] method, so the
    parser raises AttributeError. *)
Definition NpmSpec_new (v : pyvalue) : result (Clause Version) :=
  match v with
  | VStr s =>
      match NpmSpec s with
      | Some c => Ok c
      | None => Raise ValueError
      end
  | _ => Raise AttributeError
  end.

Definition normalize_npm_version (version_str : pyvalue) : result pyvalue :=
  if Py.in_strs version_str ["*"; "latest"; "next"; ""] then Ok version_str
  else
    special <- Py.any_in SPECIAL_PROTOCOLS version_str ;;
    if special then Ok version_str else Py.replace_wildcards version_str.

(** The expression [NpmSpec(normalize_npm_version(v))] of
    [compare_npm_specs] and [merge_dependency_versions]. *)
Definition range_spec (v : pyvalue) : result (Clause Version) :=
  normalized <- normalize_npm_version v ;;
  NpmSpec_new normalized.

(** The group matched by [re.match(r"^([\^~]|>=|<=|>|<|=)", s)], with
    the default ["="] when nothing matches. *)
Definition version_prefix (s : string) : string :=
  if prefix "^" s then "^"
  else if prefix "~" s then "~"
  else if prefix ">=" s then ">="
  else if prefix "<=" s then "<="
  else if prefix ">" s then ">"
  else if prefix "<" s then "<"
  else if prefix "=" s then "="
  else "=".

(** [re.match] raises TypeError on a non-string. *)
Definition get_version_prefix (version_str : pyvalue) : result string :=
  match version_str with
  | VStr s => Ok (version_prefix s)
  | _ => Raise TypeError
  end.

(** [spec] stands for [spec.clause]; clause objects are always true. *)
Definition get_operator_from_range (spec : Clause Version) : string :=
  match find_first_range spec with
  | Some (operator, _) => operator
  | None => "="
  end.

Definition _search_spec_clause_for_version (spec : Clause Version)
  : option Version :=
  match find_first_range spec with
  | Some (_, target) => Some target
  | None => None
  end.

(** The second [try] block of [_extract_version_from_spec] on a string:
    the version read off the text of the range.  [split()[0]] raises
    IndexError on blank text and [Version] raises ValueError. *)
Definition version_from_text (original_str : string) : result Version :=
  let cleaned := PyStr.strip_operators original_str in
  let cleaned :=
    if PyStr.contains "||" cleaned
    then PyStr.strip (PyStr.before_first "||" cleaned)
    else cleaned in
  let cleaned :=
    if PyStr.contains " - " cleaned
    then PyStr.strip (PyStr.before_first " - " cleaned)
    else cleaned in
  cleaned <-
    (if PyStr.contains " " cleaned
     then token <- PyStr.first_token cleaned ;; Ok (PyStr.strip token)
     else Ok (PyStr.strip cleaned)) ;;
  let cleaned :=
    PyStr.replace_char "X" "0" (PyStr.replace_char "x" "0" cleaned) in
  match Version_of_str cleaned with
  | Some version => Ok version
  | None => Raise ValueError
  end.

(** [re.sub] raises TypeError on a non-string; [Version] objects are
    always true. *)
Definition _extract_version_from_spec (spec : Clause Version)
    (original_str : pyvalue) : result (option Version) :=
  if Py.in_strs original_str ["*"; "latest"; ""; "next"] then Ok None
  else
    special <- Py.any_in SPECIAL_PROTOCOLS original_str ;;
    if special then Ok None
    else
      match _search_spec_clause_for_version spec with
      | Some version => Ok (Some version)
      | None =>
          try_except
            (match original_str with
             | VStr s =>
                 version <- version_from_text s ;; Ok (Some version)
             | _ => Raise TypeError
             end)
            (Ok None)
      end.

Definition compare_npm_specs (base_version update_version : pyvalue)
  : result Z :=
  try_except
    (base_spec <- range_spec base_version ;;
     update_spec <- range_spec update_version ;;
     base_ver <- _extract_version_from_spec base_spec base_version ;;
     update_ver <- _extract_version_from_spec update_spec update_version ;;
     match base_ver, update_ver with
     | None, None => Ok 0%Z
     | None, Some _ => Ok 1%Z
     | Some _, None => Ok (-1)%Z
     | Some b, Some u =>
         if Version_gt u b then Ok 1%Z
         else if Version_gt b u then Ok (-1)%Z
         else Ok 0%Z
     end)
    (Ok 0%Z).

(** The operator a side enters the tie-break with: its literal prefix
    when that is [^] or [~], else the operator of its first range. *)
Definition tie_break_operator (prefix operator : string) : string :=
  if existsb (String.eqb prefix) ["^"; "~"] then prefix else operator.

(** The [try] block that ends [merge_dependency_versions]: on a tie of
    the comparison the side with the more flexible operator is kept, and
    the update when the operators cannot be determined. *)
Definition tie_break (base_version update_version : pyvalue)
  : result pyvalue :=
  try_except
    (base_spec <- range_spec base_version ;;
     update_spec <- range_spec update_version ;;
     let base_operator := get_operator_from_range base_spec in
     let update_operator := get_operator_from_range update_spec in
     base_prefix <- get_version_prefix base_version ;;
     update_prefix <- get_version_prefix update_version ;;
     let base_op := tie_break_operator base_prefix base_operator in
     let update_op := tie_break_operator update_prefix update_operator in
     let base_priority := priority base_op in
     let update_priority := priority update_op in
     Ok (if (update_priority >? base_priority)%Z
         then update_version else base_version))
    (Ok update_version).

Definition merge_dependency_versions (base_version update_version : pyvalue)
  : result pyvalue :=
  if Py.in_strs base_version ["*"; "latest"]
     && negb (Py.in_strs update_version ["*"; "latest"])
  then Ok update_version
  else if Py.in_strs update_version ["*"; "latest"]
          && negb (Py.in_strs base_version ["*"; "latest"])
  then Ok base_version
  else
    base_special <- Py.any_in SPECIAL_PROTOCOLS base_version ;;
    special <- (if base_special then Ok true
                else Py.any_in SPECIAL_PROTOCOLS update_version) ;;
    if special then Ok update_version
    else
      comparison <- compare_npm_specs base_version update_version ;;
      if (comparison >? 0)%Z then Ok update_version
      else if (comparison <? 0)%Z then Ok base_version
      else tie_break base_version update_version.

(** The loop of [merge_dependencies] over [updates.items()] when
    [result] is a dictionary. *)
Fixpoint merge_dependencies_loop (items : list (string * pyvalue))
    (res : dict pyvalue) : result (dict pyvalue) :=
  match items with
  | [] => Ok res
  | (package, version) :: rest =>
      match dict_get package res with
      | Some current =>
          merged <- merge_dependency_versions current version ;;
          merge_dependencies_loop rest (dict_set package merged res)
      | None => merge_dependencies_loop rest (dict_set package version res)
      end
  end.

(** [base.copy()] exists on dictionaries and lists only and
    [updates.items()] on dictionaries only (AttributeError otherwise).
    When [base] is a list, the first loop round indexes the list with a
    string: TypeError. *)
Definition merge_dependencies (base updates : pyvalue) : result pyvalue :=
  match base with
  | VDict b =>
      match updates with
      | VDict u => res <- merge_dependencies_loop u b ;; Ok (VDict res)
      | _ => Raise AttributeError
      end
  | VList items =>
      match updates with
      | VDict [] => Ok (VList items)
      | VDict (_ :: _) => Raise TypeError
      | _ => Raise AttributeError
      end
  | _ => Raise AttributeError
  end.

End Ranges.

(** ** The deep merger *)

(** [with suppress(TypeError): x = body]: [x] keeps its old value when
    [body] raises TypeError. *)
Definition suppress_TypeError {A : Type} (body : result A) (old : A)
  : result A :=
  match body with
  | Ok a => Ok a
  | Raise TypeError => Ok old
  | Raise e => Raise e
  end.

(** [a < b] on two items of a dictionary whose keys differ. *)
Definition item_ltb (a b : string * pyvalue) : bool :=
  String.ltb (fst a) (fst b).

(** [dict(sorted(d.items()))].  The keys of a dictionary differ, so the
    comparison of two items is decided by their keys. *)
Definition sorted_items (d : dict pyvalue) : dict pyvalue :=
  sort_by item_ltb d.

(** [":".join(sorted(item["files"]))]. *)
Definition overrides_dedup_key (files : pyvalue) : result string :=
  names <- Py.sorted_value files ;; Py.join ":" names.

(** First loop of the overrides branch: every base item that is a
    dictionary with a ["files"] key is stored under its dedup key. *)
Fixpoint overrides_add_base (items : list pyvalue) (dedup_dict : dict pyvalue)
  : result (dict pyvalue) :=
  match items with
  | [] => Ok dedup_dict
  | item :: rest =>
      match item with
      | VDict entries =>
          match dict_get "files" entries with
          | Some files =>
              dedup_key <- overrides_dedup_key files ;;
              overrides_add_base rest (dict_set dedup_key item dedup_dict)
          | None => overrides_add_base rest dedup_dict
          end
      | _ => overrides_add_base rest dedup_dict
      end
  end.

(** Second loop: an update item is stored only under a key not yet there. *)
Fixpoint overrides_add_update (items : list pyvalue)
    (dedup_dict : dict pyvalue) : result (dict pyvalue) :=
  match items with
  | [] => Ok dedup_dict
  | item :: rest =>
      match item with
      | VDict entries =>
          match dict_get "files" entries with
          | Some files =>
              dedup_key <- overrides_dedup_key files ;;
              if dict_mem dedup_key dedup_dict
              then overrides_add_update rest dedup_dict
              else overrides_add_update rest
                     (dict_set dedup_key item dedup_dict)
          | None => overrides_add_update rest dedup_dict
          end
      | _ => overrides_add_update rest dedup_dict
      end
  end.

(** The overrides branch of [_deep_merge_value]. *)
Definition merge_overrides (base_val value : list pyvalue)
  : result (list pyvalue) :=
  dedup_dict <- overrides_add_base base_val [] ;;
  dedup_dict <- overrides_add_update value dedup_dict ;;
  Ok (dict_values (sorted_items dedup_dict)).

(** The regular list branch of [_deep_merge_value]. *)
Definition merge_lists (base_val value : list pyvalue)
  : result (list pyvalue) :=
  let merged_list := base_val ++ value in
  merged_list <- suppress_TypeError (Py.list_set merged_list) merged_list ;;
  Py.sorted merged_list.

Section DeepMerge.
Context {L : SemverLib}.

(** [_deep_merge_value]; the updated [result] dictionary is returned.
    The inner loop is the body of [deep_merge] on the two
    sub-dictionaries. *)
Fixpoint _deep_merge_value (list_strategy key : string) (value : pyvalue)
    (res : dict pyvalue) {struct value} : result (dict pyvalue) :=
  match dict_get key res with
  | None => Ok (dict_set key value res)
  | Some base_val =>
      if is_dependency_key key then
        merged <- merge_dependencies base_val value ;;
        Ok (dict_set key merged res)
      else
        match base_val, value with
        | VDict b, VDict u =>
            merged <-
              (fix loop (items : list (string * pyvalue))
                   (acc : dict pyvalue) : result (dict pyvalue) :=
                 match items with
                 | [] => Ok acc
                 | (k, v) :: rest =>
                     acc' <- _deep_merge_value list_strategy k v acc ;;
                     loop rest acc'
                 end) u b ;;
            Ok (dict_set key (VDict merged) res)
        | VList b, VList u =>
            if String.eqb list_strategy "merge" then
              if String.eqb key "overrides" then
                merged <- merge_overrides b u ;;
                Ok (dict_set key (VList merged) res)
              else
                merged <- merge_lists b u ;;
                Ok (dict_set key (VList merged) res)
            else Ok (dict_set key value res)
        | _, _ => Ok (dict_set key value res)
        end
  end.

(** The loop of [deep_merge] over [updates.items()]. *)
Fixpoint deep_merge_loop (list_strategy : string)
    (items : list (string * pyvalue)) (res : dict pyvalue)
  : result (dict pyvalue) :=
  match items with
  | [] => Ok res
  | (key, value) :: rest =>
      res' <- _deep_merge_value list_strategy key value res ;;
      deep_merge_loop list_strategy rest res'
  end.

Definition deep_merge (base updates : dict pyvalue) (list_strategy : string)
  : result (dict pyvalue) :=
  deep_merge_loop list_strategy updates base.

End DeepMerge.

(** ** Reading and merging files *)

Section Files.
Context {L : SemverLib}.

(** [json.loads(filepath.read_text())]: the file system and the JSON
    decoder are outside the module. *)
Variable read_json : string -> result pyvalue.

(** A computation that reads files: it takes and returns the list of
    the paths read so far. *)
Definition IO (A : Type) : Type := list string -> result A * list string.

Definition load_package_json (filepath : string) : IO (dict pyvalue) :=
  fun reads =>
    let reads := reads ++ [filepath] in
    match read_json filepath with
    | Ok (VDict content) => (Ok content, reads)
    | Ok _ => (Raise TypeError, reads)
    | Raise e => (Raise e, reads)
    end.

(** The loop of [merge_package_json_files] over [filepaths[1:]]. *)
Fixpoint merge_files_loop (filepaths : list string) (list_strategy : string)
    (res : dict pyvalue) : IO (dict pyvalue) :=
  fun reads =>
    match filepaths with
    | [] => (Ok res, reads)
    | filepath :: rest =>
        match load_package_json filepath reads with
        | (Ok updates, reads) =>
            match deep_merge res updates list_strategy with
            | Ok res' => merge_files_loop rest list_strategy res' reads
            | Raise e => (Raise e, reads)
            end
        | (Raise e, reads) => (Raise e, reads)
        end
    end.

Definition merge_package_json_files (filepaths : list string)
    (list_strategy : string) : IO (dict pyvalue) :=
  fun reads =>
    match filepaths with
    | [] => (Ok [], reads)
    | first :: rest =>
        match load_package_json first reads with
        | (Ok res, reads) => merge_files_loop rest list_strategy res reads
        | (Raise e, reads) => (Raise e, reads)
        end
    end.

End Files.

(** ** semantic_version on plain ranges

    A model of the package on the ranges [OP MAJOR.MINOR.PATCH] with one
    optional operator and three numeric components, used to run the module
    on concrete strings.  On these strings and on the bare words the
    package rejects (such as [latest] and [next]) it follows the npm
    parser of the package; other range syntax (wildcards, partial versions,
    prerelease tags, [||] and hyphen ranges) is outside of it.  The two
    ranges of a caret or tilde range are listed lower bound first. *)

Module PlainSemver.

Record version : Type := { major : N; minor : N; patch : N }.

Definition digit (c : ascii) : option N :=
  let n := N_of_ascii c in
  if ((48 <=? n) && (n <=? 57))%N then Some (n - 48)%N else None.

Fixpoint digits (s : string) (acc : N) : option N :=
  match s with
  | EmptyString => Some acc
  | String c rest =>
      match digit c with
      | Some d => digits rest (10 * acc + d)%N
      | None => None
      end
  end.

(** A numeric component, [0|[1-9][0-9]*]. *)
Definition number (s : string) : option N :=
  match s with
  | EmptyString => None
  | String c rest =>
      if Ascii.eqb c "0" && negb (String.eqb rest "") then None
      else digits s 0%N
  end.

Fixpoint split_dot (s : string) : list string :=
  match s with
  | EmptyString => [EmptyString]
  | String c rest =>
      if Ascii.eqb c "." then EmptyString :: split_dot rest
      else match split_dot rest with
           | part :: parts => String c part :: parts
           | [] => [String c EmptyString]
           end
  end.

(** [Version(s)]. *)
Definition parse_version (s : string) : option version :=
  match split_dot s with
  | [a; b; c] =>
      match number a, number b, number c with
      | Some x, Some y, Some z => Some {| major := x; minor := y; patch := z |}
      | _, _, _ => None
      end
  | _ => None
  end.

Definition v (x y z : N) : version :=
  {| major := x; minor := y; patch := z |}.

(** [a > b]: by major, then minor, then patch. *)
Definition gt (a b : version) : bool :=
  match N.compare (major a) (major b) with
  | Gt => true
  | Lt => false
  | Eq =>
      match N.compare (minor a) (minor b) with
      | Gt => true
      | Lt => false
      | Eq => N.ltb (patch b) (patch a)
      end
  end.

Definition next_major (v : version) : version :=
  {| major := major v + 1; minor := 0; patch := 0 |}.
Definition next_minor (v : version) : version :=
  {| major := major v; minor := minor v + 1; patch := 0 |}.
Definition next_patch (v : version) : version :=
  {| major := major v; minor := minor v; patch := patch v + 1 |}.

Fixpoint drop (n : nat) (s : string) : string :=
  match n, s with
  | S n', String _ rest => drop n' rest
  | _, _ => s
  end.

(** The operator in front of a block and the text after it. *)
Definition split_operator (s : string) : string * string :=
  if prefix ">=" s then (">=", drop 2 s)
  else if prefix "<=" s then ("<=", drop 2 s)
  else if prefix ">" s then (">", drop 1 s)
  else if prefix "<" s then ("<", drop 1 s)
  else if prefix "=" s then ("=", drop 1 s)
  else if prefix "^" s then ("^", drop 1 s)
  else if prefix "~" s then ("~", drop 1 s)
  else ("", s).

(** The ranges a block stands for. *)
Definition ranges (op : string) (v : version) : list (Clause version) :=
  if String.eqb op "^" then
    let high :=
      if negb (N.eqb (major v) 0) then next_major v
      else if negb (N.eqb (minor v) 0) then next_minor v
      else next_patch v in
    [Range ">=" v; Range "<" high]
  else if String.eqb op "~" then [Range ">=" v; Range "<" (next_minor v)]
  else if String.eqb op "=" || String.eqb op "" then [Range "==" v]
  else [Range op v].

(** [NpmSpec(s).clause]. *)
Definition npm_spec (s : string) : option (Clause version) :=
  let (op, rest) := split_operator s in
  match parse_version rest with
  | Some v => Some (AllOf (ranges op v))
  | None => None
  end.

Definition Lib : SemverLib :=
  {| Version := version;
     Version_of_str := parse_version;
     Version_gt := gt;
     NpmSpec := npm_spec |}.

End PlainSemver.

Unset Implicit Arguments.

(** ** Vocabulary of the statements *)

(** [s in ("*", "latest")]. *)
Definition wildcard (s : string) : bool :=
  existsb (String.eqb s) ["*"; "latest"].

(** Some reserved protocol marker occurs in [s]. *)
Definition has_protocol (s : string) : bool :=
  existsb (fun p => PyStr.contains p s) SPECIAL_PROTOCOLS.

(** [normalize_npm_version] on a string. *)
Definition normalize_str (s : string) : string :=
  if existsb (String.eqb s) ["*"; "latest"; "next"; ""] then s
  else if has_protocol s then s
  else PyStr.replace_char "X" "0" (PyStr.replace_char "x" "0" s).

(** A dependency mapping, from package names to range strings, as the
    dictionary the module sees. *)
Definition str_values (d : dict string) : dict pyvalue :=
  map (fun e => (fst e, VStr (snd e))) d.

(** The identity of an override entry: the names of its ["files"] list
    sorted and joined with colons.  Only a dictionary that carries a list
    of strings under ["files"] has one. *)
Definition identity (item : pyvalue) : option string :=
  match item with
  | VDict entries =>
      match dict_get "files" entries with
      | Some (VList files) =>
          match Py.all_strs files with
          | Ok names => Some (PyStr.join ":" (sort_by String.ltb names))
          | Raise _ => None
          end
      | _ => None
      end
  | _ => None
  end.

(** The data model of an override entry: when an element of the array is
    a dictionary with a ["files"] key, the key holds a list of strings. *)
Definition files_well_formed (item : pyvalue) : bool :=
  match item with
  | VDict entries =>
      match dict_get "files" entries with
      | Some (VList files) =>
          match Py.all_strs files with
          | Ok _ => true
          | Raise _ => false
          end
      | Some _ => false
      | None => true
      end
  | _ => true
  end.

(** The element is a dictionary with a ["files"] key. *)
Definition carries_files (item : pyvalue) : bool :=
  match item with
  | VDict entries => dict_mem "files" entries
  | _ => false
  end.

(** The regular list merge in the words of the claim: the concatenation,
    deduplicated and sorted when every element can be hashed and compared,
    and left as it is otherwise. *)
Definition spec_merge_lists (base_val value : list pyvalue) : list pyvalue :=
  let merged := base_val ++ value in
  if forallb Py.hashable merged && Py.all_comparable merged
  then sort_by Py.ltb (Py.dedup merged)
  else merged.

(** What the two loops do with one item. *)
Inductive override_item (item : pyvalue) : option string -> Prop :=
| override_keyed (entries : dict pyvalue) (files : pyvalue) (k : string) :
    item = VDict entries ->
    dict_get "files" entries = Some files ->
    overrides_dedup_key files = Ok k ->
    identity item = Some k ->
    override_item item (Some k)
| override_dropped :
    identity item = None ->
    match item with
    | VDict entries => dict_get "files" entries = None
    | _ => True
    end ->
    override_item item None.

Section Vocabulary.
Context {L : SemverLib}.

(** The verdict of the comparator on two anchors: the greater anchor
    wins, a side without an anchor wins over a side with one, and two
    absent or two equally ranked anchors tie. *)
Definition anchor_verdict (base_anchor update_anchor : option Version) : Z :=
  match base_anchor, update_anchor with
  | None, None => 0%Z
  | None, Some _ => 1%Z
  | Some _, None => (-1)%Z
  | Some b, Some u =>
      if Version_gt u b then 1%Z
      else if Version_gt b u then (-1)%Z
      else 0%Z
  end.

(** The anchor of a raw range string in the words of the specification:
    none for the special tokens and the protocol strings; else the target
    of the first primitive comparison of the parsed range; and when the
    parse or the walk fails, the version read off the text. *)
Definition spec_anchor (s : string) : option Version :=
  if existsb (String.eqb s) ["*"; "latest"; ""; "next"] || has_protocol s
  then None
  else
    let textual :=
      match version_from_text s with
      | Ok v => Some v
      | Raise _ => None
      end in
    match NpmSpec (normalize_str s) with
    | Some c =>
        match find_first_range c with
        | Some (_, target) => Some target
        | None => textual
        end
    | None => textual
    end.

(** The priority a side enters the tie-break with. *)
Definition side_priority (spec : Clause Version) (s : string) : Z :=
  priority (tie_break_operator (version_prefix s)
              (get_operator_from_range spec)).

End Vocabulary.

(** What [normalize_npm_version] does to one character of a range that
    is rewritten: a wildcard letter becomes a zero. *)
Definition wildcard_to_zero (c : ascii) : ascii :=
  if Ascii.eqb c "x" || Ascii.eqb c "X" then "0"%char else c.

(** The operators of the regular expression of [get_version_prefix]. *)
Definition OPERATORS : list string := ["^"; "~"; ">="; "<="; ">"; "<"; "="].

(** The ranges of a clause in the order a depth-first walk meets them. *)
Fixpoint ranges_of {V : Type} (c : Clause V) : list (string * V) :=
  match c with
  | Range op target => [(op, target)]
  | AllOf cs | AnyOf cs =>
      (fix go (cs : list (Clause V)) : list (string * V) :=
         match cs with
         | [] => []
         | c :: rest => ranges_of c ++ go rest
         end) cs
  | Never | Always => []
  end.

(** Induction on a clause with the sub-clauses of a node at hand. *)
Section ClauseInduction.
Variables (V : Type) (P : Clause V -> Prop).
Hypothesis HNever : P Never.
Hypothesis HAlways : P Always.
Hypothesis HRange : forall op target, P (Range op target).
Hypothesis HAllOf : forall cs, Forall P cs -> P (AllOf cs).
Hypothesis HAnyOf : forall cs, Forall P cs -> P (AnyOf cs).

Fixpoint Clause_induction (c : Clause V) : P c :=
  match c with
  | Never => HNever
  | Always => HAlways
  | Range op target => HRange op target
  | AllOf cs =>
      HAllOf cs
        ((fix go (cs : list (Clause V)) : Forall P cs :=
            match cs with
            | [] => Forall_nil P
            | c :: rest => Forall_cons c (Clause_induction c) (go rest)
            end) cs)
  | AnyOf cs =>
      HAnyOf cs
        ((fix go (cs : list (Clause V)) : Forall P cs :=
            match cs with
            | [] => Forall_nil P
            | c :: rest => Forall_cons c (Clause_induction c) (go rest)
            end) cs)
  end.

End ClauseInduction.

(** Induction on a JSON value with the elements of an array and the
    values of an object at hand. *)
Section PyvalueInduction.
Variable P : pyvalue -> Prop.
Hypothesis HNone : P VNone.
Hypothesis HBool : forall b, P (VBool b).
Hypothesis HInt : forall n, P (VInt n).
Hypothesis HStr : forall s, P (VStr s).
Hypothesis HList : forall items, Forall P items -> P (VList items).
Hypothesis HDict :
  forall entries, Forall (fun e => P (snd e)) entries -> P (VDict entries).

Fixpoint pyvalue_induction (v : pyvalue) : P v :=
  match v with
  | VNone => HNone
  | VBool b => HBool b
  | VInt n => HInt n
  | VStr s => HStr s
  | VList items =>
      HList items
        ((fix go (l : list pyvalue) : Forall P l :=
            match l with
            | [] => Forall_nil P
            | x :: rest => Forall_cons x (pyvalue_induction x) (go rest)
            end) items)
  | VDict entries =>
      HDict entries
        ((fix go (l : list (string * pyvalue))
            : Forall (fun e => P (snd e)) l :=
            match l with
            | [] => Forall_nil _
            | e :: rest =>
                Forall_cons e (pyvalue_induction (snd e)) (go rest)
            end) entries)
  end.

End PyvalueInduction.

(** The keys of a dictionary differ from one another, as the keys of a
    Python [dict] do. *)
Fixpoint unique_keys {A : Type} (d : dict A) : bool :=
  match d with
  | [] => true
  | (k, _) :: rest => negb (dict_mem k rest) && unique_keys rest
  end.

Definition is_str (v : pyvalue) : bool :=
  match v with
  | VStr _ => true
  | _ => false
  end.

(** An object that maps package names to range strings. *)
Definition dependency_mapping (v : pyvalue) : bool :=
  match v with
  | VDict entries =>
      unique_keys entries && forallb (fun e => is_str (snd e)) entries
  | _ => false
  end.

(** A package.json document as the merger expects it: objects have unique
    keys, at every depth, and a dependency key holds a dependency
    mapping.  Arrays and scalars are not restricted. *)
Fixpoint well_formed (v : pyvalue) : bool :=
  match v with
  | VDict entries =>
      unique_keys entries
      && (fix go (es : list (string * pyvalue)) : bool :=
            match es with
            | [] => true
            | (k, x) :: rest =>
                (if is_dependency_key k then dependency_mapping x
                 else well_formed x)
                && go rest
            end) entries
  | _ => true
  end.

(** No dependency key occurs in the objects of the value, at any depth. *)
Fixpoint no_dependency_key (v : pyvalue) : bool :=
  match v with
  | VDict entries =>
      (fix go (es : list (string * pyvalue)) : bool :=
         match es with
         | [] => true
         | (k, x) :: rest =>
             negb (is_dependency_key k) && no_dependency_key x && go rest
         end) entries
  | _ => true
  end.

(** The element's identity is [k]. *)
Definition has_identity (k : string) (item : pyvalue) : bool :=
  match identity item with
  | Some k' => String.eqb k' k
  | None => false
  end.

(** The first element of an array with identity [k]. *)
Definition first_with_identity (k : string) (items : list pyvalue)
  : option pyvalue :=
  find (has_identity k) items.

(** The last element of an array with identity [k]. *)
Fixpoint last_with_identity (k : string) (items : list pyvalue)
  : option pyvalue :=
  match items with
  | [] => None
  | item :: rest =>
      match last_with_identity k rest with
      | Some later => Some later
      | None => if has_identity k item then Some item else None
      end
  end.

(** The entry that stands for identity [k] in a merged [overrides]
    array: the last one of the base array, and without one the first of
    the update array. *)
Definition chosen_override (k : string) (base_val value : list pyvalue)
  : option pyvalue :=
  match last_with_identity k base_val with
  | Some item => Some item
  | None => first_with_identity k value
  end.

(** * Properties *)

(** Case analysis on [k =? p] in a hypothesis about a dictionary whose
    first key is [p]. *)
Ltac split_key k p H E :=
  cbn in H; revert H; destruct (String.eqb k p) eqn:E; intros H;
  [apply String.eqb_eq in E; subst k | ].


(** ** Dictionaries *)

Section DictFacts.
Context {A : Type}.
Implicit Types (d : dict A) (k : string) (v : A).

Lemma dict_get_set d k k' v :
  dict_get k' (dict_set k v d)
  = if String.eqb k' k then Some v else dict_get k' d.
Proof.
  induction d as [|[k0 v0] d IH]; cbn.
  - reflexivity.
  - destruct (String.eqb_spec k k0) as [->|Hk]; cbn.
    + destruct (String.eqb k' k0); reflexivity.
    + rewrite IH. destruct (String.eqb_spec k' k0) as [->|]; [|reflexivity].
      apply String.eqb_neq in Hk. rewrite String.eqb_sym, Hk. reflexivity.
Qed.

Lemma dict_get_None d k : dict_get k d = None <-> ~ In k (dict_keys d).
Proof.
  induction d as [|[k0 v0] d IH]; cbn.
  - tauto.
  - destruct (String.eqb_spec k k0) as [->|Hk].
    + split; [discriminate | intros H; exfalso; apply H; auto].
    + rewrite IH. split; [intros H [E|E]; [congruence | tauto] | tauto].
Qed.

Lemma dict_mem_In d k : dict_mem k d = true <-> In k (dict_keys d).
Proof.
  unfold dict_mem. destruct (dict_get k d) eqn:E.
  - split; [intros _ | reflexivity].
    destruct (in_dec string_dec k (dict_keys d)) as [H|H]; [exact H|].
    apply dict_get_None in H. congruence.
  - apply dict_get_None in E. split; [discriminate | tauto].
Qed.

Lemma dict_keys_set d k v :
  dict_keys (dict_set k v d)
  = if dict_mem k d then dict_keys d else dict_keys d ++ [k].
Proof.
  unfold dict_mem, dict_keys.
  induction d as [|[k0 v0] d IH]; cbn.
  - reflexivity.
  - destruct (String.eqb k k0); cbn; [reflexivity|].
    rewrite IH. destruct (dict_get k d); reflexivity.
Qed.

Lemma dict_mem_set d k k' v :
  dict_mem k' (dict_set k v d) = String.eqb k' k || dict_mem k' d.
Proof.
  unfold dict_mem. rewrite dict_get_set.
  destruct (String.eqb k' k); reflexivity.
Qed.

Lemma dict_get_In d k v : dict_get k d = Some v -> In (k, v) d.
Proof.
  induction d as [|[k0 v0] d IH]; cbn; [discriminate|].
  destruct (String.eqb_spec k k0) as [->|Hk].
  - intros [= ->]. auto.
  - auto.
Qed.

Lemma dict_In_get d k v :
  NoDup (dict_keys d) -> In (k, v) d -> dict_get k d = Some v.
Proof.
  induction d as [|[k0 v0] d IH]; cbn; [tauto|].
  intros Hnd [E|Hin].
  - injection E as -> ->. rewrite String.eqb_refl. reflexivity.
  - inversion Hnd as [|? ? Hk0 Hnd']; subst.
    destruct (String.eqb_spec k k0) as [->|Hk]; [|auto].
    exfalso. apply Hk0. change (In (fst (k0, v)) (map fst d)).
    apply in_map, Hin.
Qed.

Lemma dict_set_NoDup d k v :
  NoDup (dict_keys d) -> NoDup (dict_keys (dict_set k v d)).
Proof.
  intros H. rewrite dict_keys_set. destruct (dict_mem k d) eqn:E; [exact H|].
  apply NoDup_app; [exact H | repeat constructor; cbn; tauto |].
  intros x Hx [<-|[]].
  apply dict_mem_In in Hx. congruence.
Qed.

End DictFacts.

Lemma dict_get_str_values (d : dict string) (k : string) :
  dict_get k (str_values d) = option_map VStr (dict_get k d).
Proof.
  induction d as [|[k0 v0] d IH]; cbn; [reflexivity|].
  destruct (String.eqb k k0); [reflexivity | exact IH].
Qed.

Lemma dict_set_str_values (d : dict string) (k v : string) :
  dict_set k (VStr v) (str_values d) = str_values (dict_set k v d).
Proof.
  induction d as [|[k0 v0] d IH]; cbn; [reflexivity|].
  destruct (String.eqb k k0); cbn; [reflexivity|]. f_equal. exact IH.
Qed.

Lemma any_in_str (needles : list string) (s : string) :
  Py.any_in needles (VStr s)
  = Ok (existsb (fun p => PyStr.contains p s) needles).
Proof.
  induction needles as [|n rest IH]; simpl; [reflexivity|].
  destruct (PyStr.contains n s); simpl; [reflexivity | exact IH].
Qed.

Section RangeFacts.
Context {L : SemverLib}.

Lemma normalize_npm_version_str (s : string) :
  normalize_npm_version (VStr s) = Ok (VStr (normalize_str s)).
Proof.
  unfold normalize_npm_version, normalize_str, has_protocol.
  cbn [Py.in_strs].
  destruct (existsb (String.eqb s) ["*"; "latest"; "next"; ""]);
    [reflexivity|].
  rewrite any_in_str. cbn [bind].
  destruct (existsb _ SPECIAL_PROTOCOLS); reflexivity.
Qed.

Lemma range_spec_str (s : string) :
  range_spec (VStr s)
  = match NpmSpec (normalize_str s) with
    | Some c => Ok c
    | None => Raise ValueError
    end.
Proof.
  unfold range_spec. rewrite normalize_npm_version_str. reflexivity.
Qed.

(** On a string the construction of a range succeeds or raises
    ValueError. *)
Lemma range_spec_str_cases (s : string) :
  (exists c, range_spec (VStr s) = Ok c)
  \/ range_spec (VStr s) = Raise ValueError.
Proof.
  rewrite range_spec_str.
  destruct (NpmSpec (normalize_str s)); eauto.
Qed.

(** The comparator ties as soon as one construction fails. *)
Lemma compare_npm_specs_failure (base update : string) :
  range_spec (VStr base) = Raise ValueError
  \/ range_spec (VStr update) = Raise ValueError ->
  compare_npm_specs (VStr base) (VStr update) = Ok 0%Z.
Proof.
  intros H. unfold compare_npm_specs.
  destruct (range_spec_str_cases base) as [[bs Hb] | Hb]; rewrite Hb.
  - destruct H as [H | H]; [congruence|]. rewrite H. reflexivity.
  - reflexivity.
Qed.

(** The tie-break keeps the update as soon as one construction fails. *)
Lemma tie_break_failure (base update : string) :
  range_spec (VStr base) = Raise ValueError
  \/ range_spec (VStr update) = Raise ValueError ->
  tie_break (VStr base) (VStr update) = Ok (VStr update).
Proof.
  intros H. unfold tie_break.
  destruct (range_spec_str_cases base) as [[bs Hb] | Hb]; rewrite Hb.
  - destruct H as [H | H]; [congruence|]. rewrite H. reflexivity.
  - reflexivity.
Qed.

(** [merge_dependency_versions] on two strings, rule by rule. *)
Lemma merge_dependency_versions_str (base update : string) :
  merge_dependency_versions (VStr base) (VStr update)
  = if wildcard base && negb (wildcard update) then Ok (VStr update)
    else if wildcard update && negb (wildcard base) then Ok (VStr base)
    else if has_protocol base || has_protocol update then Ok (VStr update)
    else
      comparison <- compare_npm_specs (VStr base) (VStr update) ;;
      if (comparison >? 0)%Z then Ok (VStr update)
      else if (comparison <? 0)%Z then Ok (VStr base)
      else tie_break (VStr base) (VStr update).
Proof.
  unfold merge_dependency_versions. cbn [Py.in_strs].
  fold (wildcard base) (wildcard update).
  destruct (wildcard base && negb (wildcard update)); [reflexivity|].
  destruct (wildcard update && negb (wildcard base)); [reflexivity|].
  rewrite !any_in_str. fold (has_protocol base) (has_protocol update).
  cbn [bind].
  destruct (has_protocol base); cbn [bind orb]; [reflexivity|].
  destruct (has_protocol update); reflexivity.
Qed.

End RangeFacts.

(** The plain-range model satisfies the assumption on the parser. *)
Lemma PlainSemver_has_range : NpmSpec_has_range PlainSemver.Lib.
Proof.
  intros s c H. cbn in H. unfold PlainSemver.npm_spec in H.
  destruct (PlainSemver.split_operator s) as [op rest].
  destruct (PlainSemver.parse_version rest) as [v|]; [|discriminate].
  injection H as <-. unfold PlainSemver.ranges.
  destruct (String.eqb op "^"); [cbn; discriminate|].
  destruct (String.eqb op "~"); [cbn; discriminate|].
  destruct (String.eqb op "=" || String.eqb op ""); cbn; discriminate.
Qed.

Section RangeTheorems.
Context {L : SemverLib}.

(** When the clause holds a range, the anchor is its target, except for
    the special tokens and the protocol strings. *)
Lemma extract_version_found (c : Clause Version) (s op : string)
    (target : Version) :
  find_first_range c = Some (op, target) ->
  _extract_version_from_spec c (VStr s)
  = Ok (if existsb (String.eqb s) ["*"; "latest"; ""; "next"]
           || has_protocol s
        then None else Some target).
Proof.
  intros H. unfold _extract_version_from_spec, _search_spec_clause_for_version.
  cbn [Py.in_strs].
  destruct (existsb (String.eqb s) ["*"; "latest"; ""; "next"]);
    [reflexivity|].
  rewrite any_in_str. fold (has_protocol s). cbn [bind orb].
  destruct (has_protocol s); [reflexivity|].
  rewrite H. reflexivity.
Qed.

Lemma extract_version_total (HL : NpmSpec_has_range L) (s : string)
    (c : Clause Version) :
  range_spec (VStr s) = Ok c ->
  exists anchor, _extract_version_from_spec c (VStr s) = Ok anchor.
Proof.
  rewrite range_spec_str. intros H.
  destruct (NpmSpec (normalize_str s)) as [c'|] eqn:E; [|discriminate].
  injection H as ->.
  destruct (find_first_range c) as [[op target]|] eqn:F.
  - rewrite (extract_version_found c s op target F). eauto.
  - exfalso. exact (HL _ _ E F).
Qed.

(** The comparator in terms of the anchors, when both constructions
    succeed. *)
Lemma compare_npm_specs_anchors (base update : string)
    (bs us : Clause Version) (ba ua : option Version) :
  range_spec (VStr base) = Ok bs ->
  range_spec (VStr update) = Ok us ->
  _extract_version_from_spec bs (VStr base) = Ok ba ->
  _extract_version_from_spec us (VStr update) = Ok ua ->
  compare_npm_specs (VStr base) (VStr update) = Ok (anchor_verdict ba ua).
Proof.
  intros Hb Hu Ha Hv. unfold compare_npm_specs.
  rewrite Hb, Hu. cbn [bind]. rewrite Ha, Hv. cbn [bind].
  unfold anchor_verdict.
  destruct ba as [b|], ua as [u|]; try reflexivity.
  destruct (Version_gt u b); [reflexivity|].
  destruct (Version_gt b u); reflexivity.
Qed.

(** On strings the comparator returns a verdict. *)
Lemma compare_npm_specs_total (HL : NpmSpec_has_range L)
    (base update : string) :
  exists comparison,
    compare_npm_specs (VStr base) (VStr update) = Ok comparison.
Proof.
  destruct (range_spec_str_cases base) as [[bs Hb] | Hb];
    [|rewrite compare_npm_specs_failure; eauto].
  destruct (range_spec_str_cases update) as [[us Hu] | Hu];
    [|rewrite compare_npm_specs_failure; eauto].
  destruct (extract_version_total HL base bs Hb) as [ba Ha].
  destruct (extract_version_total HL update us Hu) as [ua Hv].
  rewrite (compare_npm_specs_anchors base update bs us ba ua Hb Hu Ha Hv). eauto.
Qed.

(** The tie-break when both constructions succeed. *)
Lemma tie_break_success (base update : string) (bs us : Clause Version) :
  range_spec (VStr base) = Ok bs ->
  range_spec (VStr update) = Ok us ->
  tie_break (VStr base) (VStr update)
  = Ok (VStr (if (side_priority us update >? side_priority bs base)%Z
              then update else base)).
Proof.
  intros Hb Hu. unfold tie_break. rewrite Hb, Hu.
  cbn [bind get_version_prefix try_except]. unfold side_priority.
  destruct (_ >? _)%Z; reflexivity.
Qed.

(** The tie-break returns one of its two arguments. *)
Lemma tie_break_cases (base update : string) :
  tie_break (VStr base) (VStr update) = Ok (VStr base)
  \/ tie_break (VStr base) (VStr update) = Ok (VStr update).
Proof.
  destruct (range_spec_str_cases base) as [[bs Hb] | Hb];
    [|right; apply tie_break_failure; auto].
  destruct (range_spec_str_cases update) as [[us Hu] | Hu];
    [|right; apply tie_break_failure; auto].
  rewrite (tie_break_success base update bs us Hb Hu).
  destruct (_ >? _)%Z; auto.
Qed.

(** [merge_dependency_versions] returns one of its two arguments. *)
Lemma merge_dependency_versions_cases (HL : NpmSpec_has_range L)
    (base update : string) :
  merge_dependency_versions (VStr base) (VStr update) = Ok (VStr base)
  \/ merge_dependency_versions (VStr base) (VStr update) = Ok (VStr update).
Proof.
  rewrite merge_dependency_versions_str.
  destruct (wildcard base && negb (wildcard update)); [auto|].
  destruct (wildcard update && negb (wildcard base)); [auto|].
  destruct (has_protocol base || has_protocol update); [auto|].
  destruct (compare_npm_specs_total HL base update) as [c ->]. cbn [bind].
  destruct (c >? 0)%Z; [auto|]. destruct (c <? 0)%Z; [auto|].
  apply tie_break_cases.
Qed.

End RangeTheorems.

(** * The claims *)

Section RangeClaims.
Context {L : SemverLib}.

(** C3, amended.  The comparator decides by the anchors whenever the
    range of each side can be constructed: the verdict is +1 when the
    anchor of the update is the greater, -1 when the anchor of the base
    is, 0 when neither is; a side without an anchor wins over a side
    with one (+1 when the base has none, -1 when the update has none);
    two absent anchors tie.  When the construction of either range fails
    (as for [latest] and [next]) the comparator returns 0, whatever the
    anchors are. *)
Theorem compare_npm_specs_decides_by_anchors (base update : string) :
  (forall (bs us : Clause Version) (ba ua : option Version),
      range_spec (VStr base) = Ok bs ->
      range_spec (VStr update) = Ok us ->
      _extract_version_from_spec bs (VStr base) = Ok ba ->
      _extract_version_from_spec us (VStr update) = Ok ua ->
      compare_npm_specs (VStr base) (VStr update)
      = Ok (anchor_verdict ba ua))
  /\ (range_spec (VStr base) = Raise ValueError
      \/ range_spec (VStr update) = Raise ValueError ->
      compare_npm_specs (VStr base) (VStr update) = Ok 0%Z).
Proof.
  split.
  - intros bs us ba ua. apply compare_npm_specs_anchors.
  - apply compare_npm_specs_failure.
Qed.


(** C6.  The rules of [merge_dependency_versions], tried in the order of
    the claim: a lone wildcard loses to the other side; else a protocol
    marker on either side makes the update win; else the comparator
    decides and the tie-break on its ties.  The result is always one of
    the two input strings. *)
Theorem merge_dependency_versions_rules (HL : NpmSpec_has_range L)
    (base update : string) :
  (wildcard base = true -> wildcard update = false ->
   merge_dependency_versions (VStr base) (VStr update) = Ok (VStr update))
  /\ (wildcard update = true -> wildcard base = false ->
      merge_dependency_versions (VStr base) (VStr update) = Ok (VStr base))
  /\ (wildcard base = wildcard update ->
      has_protocol base || has_protocol update = true ->
      merge_dependency_versions (VStr base) (VStr update)
      = Ok (VStr update))
  /\ (wildcard base = wildcard update ->
      has_protocol base || has_protocol update = false ->
      exists comparison : Z,
        compare_npm_specs (VStr base) (VStr update) = Ok comparison
        /\ merge_dependency_versions (VStr base) (VStr update)
           = if (comparison >? 0)%Z then Ok (VStr update)
             else if (comparison <? 0)%Z then Ok (VStr base)
             else tie_break (VStr base) (VStr update))
  /\ (merge_dependency_versions (VStr base) (VStr update) = Ok (VStr base)
      \/ merge_dependency_versions (VStr base) (VStr update)
         = Ok (VStr update)).
Proof.
  repeat split.
  - intros Hb Hu. rewrite merge_dependency_versions_str, Hb, Hu.
    reflexivity.
  - intros Hu Hb. rewrite merge_dependency_versions_str, Hb, Hu.
    reflexivity.
  - intros Hw Hp.
    rewrite merge_dependency_versions_str, Hw, andb_negb_r, Hp.
    reflexivity.
  - intros Hw Hp.
    destruct (compare_npm_specs_total HL base update) as [c Hc].
    exists c. split; [exact Hc|].
    rewrite merge_dependency_versions_str, Hw, andb_negb_r, Hp, Hc.
    reflexivity.
  - apply merge_dependency_versions_cases, HL.
Qed.


End RangeClaims.

(** C10.  On an empty list of paths [merge_package_json_files] returns the
    empty object and reads no file. *)
Theorem merge_package_json_files_empty (L : SemverLib)
    (read_json : string -> result pyvalue) (list_strategy : string)
    (reads : list string) :
  merge_package_json_files read_json [] list_strategy reads = (Ok [], reads).
Proof. reflexivity. Qed.

(** ** Dependency mappings *)

Section DependencyMaps.
Context {L : SemverLib}.
Hypothesis HL : NpmSpec_has_range L.

(** The loop of [merge_dependencies], started from any dictionary of
    strings: it returns, keeps the keys of [res] in place, appends the new
    keys in the order of [updates], and sets every key of [updates]. *)
Lemma merge_dependencies_loop_spec (updates : dict string) :
  NoDup (dict_keys updates) ->
  forall res : dict string,
  exists res' : dict string,
    merge_dependencies_loop (str_values updates) (str_values res)
    = Ok (str_values res')
    /\ dict_keys res'
       = dict_keys res
         ++ filter (fun k => negb (dict_mem k res)) (dict_keys updates)
    /\ (forall k, dict_get k updates = None ->
                  dict_get k res' = dict_get k res)
    /\ (forall k u, dict_get k updates = Some u ->
                    dict_get k res = None -> dict_get k res' = Some u)
    /\ (forall k u b,
           dict_get k updates = Some u -> dict_get k res = Some b ->
           exists r,
             merge_dependency_versions (VStr b) (VStr u) = Ok (VStr r)
             /\ dict_get k res' = Some r).
Proof.
  induction updates as [|[p v] rest IH]; intros Hnd res.
  - exists res. cbn. rewrite app_nil_r.
    split; [reflexivity|]. split; [reflexivity|].
    split; [reflexivity|]. split; intros; discriminate.
  - cbn in Hnd. inversion Hnd as [|? ? Hp Hnd']; subst.
    assert (Hprest : dict_get p rest = None) by (apply dict_get_None, Hp).
    cbn [str_values map merge_dependencies_loop fst snd].
    rewrite dict_get_str_values.
    destruct (dict_get p res) as [cur|] eqn:Hcur; cbn [option_map].
    + (* the package is in the result: its two ranges are merged *)
      assert (Hm : exists r,
                 merge_dependency_versions (VStr cur) (VStr v)
                 = Ok (VStr r)).
      { destruct (merge_dependency_versions_cases HL cur v) as [E|E];
          rewrite E; eauto. }
      destruct Hm as [r Hr]. rewrite Hr. cbn [bind].
      rewrite dict_set_str_values.
      destruct (IH Hnd' (dict_set p r res))
        as (res' & Hrun & Hkeys & Hnone & Hnew & Hboth).
      exists res'. split; [exact Hrun|].
      assert (Hmem : dict_mem p res = true)
        by (unfold dict_mem; rewrite Hcur; reflexivity).
      split; [|split; [|split]].
      * rewrite Hkeys, dict_keys_set, Hmem. cbn [dict_keys map fst filter].
        rewrite Hmem. cbn [negb]. f_equal.
        apply filter_ext. intros k. rewrite dict_mem_set.
        destruct (String.eqb_spec k p) as [E|E]; [|reflexivity].
        rewrite E, Hmem. reflexivity.
      * intros k Hk. split_key k p Hk E; [discriminate|].
        rewrite (Hnone k Hk), dict_get_set, E. reflexivity.
      * intros k u Hk Hres. split_key k p Hk E; [congruence|].
        apply (Hnew k u Hk). rewrite dict_get_set, E. exact Hres.
      * intros k u b Hk Hres. split_key k p Hk E.
        -- injection Hk as <-. rewrite Hcur in Hres. injection Hres as <-.
           exists r. split; [exact Hr|].
           rewrite (Hnone p Hprest), dict_get_set, String.eqb_refl.
           reflexivity.
        -- apply (Hboth k u b Hk). rewrite dict_get_set, E. exact Hres.
    + (* a new package: appended *)
      rewrite dict_set_str_values.
      destruct (IH Hnd' (dict_set p v res))
        as (res' & Hrun & Hkeys & Hnone & Hnew & Hboth).
      exists res'. split; [exact Hrun|].
      assert (Hmem : dict_mem p res = false)
        by (unfold dict_mem; rewrite Hcur; reflexivity).
      split; [|split; [|split]].
      * rewrite Hkeys, dict_keys_set, Hmem. cbn [dict_keys map fst filter].
        rewrite Hmem. cbn [negb]. rewrite <- app_assoc. cbn [app].
        do 2 f_equal. apply filter_ext_in. intros k Hk.
        rewrite dict_mem_set.
        destruct (String.eqb_spec k p) as [E|E]; [|reflexivity].
        exfalso. rewrite E in Hk. exact (Hp Hk).
      * intros k Hk. split_key k p Hk E; [discriminate|].
        rewrite (Hnone k Hk), dict_get_set, E. reflexivity.
      * intros k u Hk Hres. split_key k p Hk E.
        -- injection Hk as <-.
           rewrite (Hnone p Hprest), dict_get_set, String.eqb_refl.
           reflexivity.
        -- apply (Hnew k u Hk). rewrite dict_get_set, E. exact Hres.
      * intros k u b Hk Hres. split_key k p Hk E; [congruence|].
        apply (Hboth k u b Hk). rewrite dict_get_set, E. exact Hres.
Qed.

End DependencyMaps.

(** C7.  [merge_dependencies] on two dependency mappings returns a mapping
    whose keys are the keys of the base in their order followed by the keys
    only the update has in their order, so the union of the keys, none
    lost; a key of both sides holds [merge_dependency_versions] of its two
    ranges and a key of one side keeps the range of that side. *)
Theorem merge_dependencies_union (L : SemverLib) (HL : NpmSpec_has_range L)
    (base updates : dict string) :
  NoDup (dict_keys updates) ->
  exists res : dict string,
    merge_dependencies (VDict (str_values base)) (VDict (str_values updates))
    = Ok (VDict (str_values res))
    /\ dict_keys res
       = dict_keys base
         ++ filter (fun k => negb (dict_mem k base)) (dict_keys updates)
    /\ (forall k, dict_mem k res = dict_mem k base || dict_mem k updates)
    /\ (forall k b u,
           dict_get k base = Some b -> dict_get k updates = Some u ->
           exists r,
             merge_dependency_versions (VStr b) (VStr u) = Ok (VStr r)
             /\ dict_get k res = Some r)
    /\ (forall k b,
           dict_get k base = Some b -> dict_get k updates = None ->
           dict_get k res = Some b)
    /\ (forall k u,
           dict_get k base = None -> dict_get k updates = Some u ->
           dict_get k res = Some u).
Proof.
  intros Hnd.
  destruct (merge_dependencies_loop_spec HL updates Hnd base)
    as (res & Hrun & Hkeys & Hnone & Hnew & Hboth).
  exists res. cbn [merge_dependencies]. rewrite Hrun. cbn [bind].
  split; [reflexivity|]. split; [exact Hkeys|].
  split; [|split; [|split]].
  - intros k. unfold dict_mem.
    destruct (dict_get k updates) as [u|] eqn:Hu;
      destruct (dict_get k base) as [b|] eqn:Hb.
    + destruct (Hboth k u b Hu Hb) as (r & _ & ->). reflexivity.
    + rewrite (Hnew k u Hu Hb). reflexivity.
    + rewrite (Hnone k Hu), Hb. reflexivity.
    + rewrite (Hnone k Hu), Hb. reflexivity.
  - intros k b u Hb Hu. exact (Hboth k u b Hu Hb).
  - intros k b Hb Hu. rewrite (Hnone k Hu). exact Hb.
  - intros k u Hb Hu. exact (Hnew k u Hu Hb).
Qed.

(** ** Insertion sort *)

Section SortFacts.
Context {A : Type} (lt : A -> A -> bool).

Lemma insert_by_perm (x : A) (l : list A) :
  Permutation (insert_by lt x l) (x :: l).
Proof.
  induction l as [|y l IH]; cbn; [reflexivity|].
  destruct (lt y x); [|reflexivity].
  rewrite IH. apply perm_swap.
Qed.

Lemma sort_by_perm (l : list A) : Permutation (sort_by lt l) l.
Proof.
  induction l as [|x l IH]; cbn; [reflexivity|].
  rewrite insert_by_perm. constructor. exact IH.
Qed.

Lemma sort_by_In (l : list A) (x : A) : In x (sort_by lt l) <-> In x l.
Proof.
  split; apply Permutation_in;
    [apply sort_by_perm | symmetry; apply sort_by_perm].
Qed.

Lemma insert_by_sorted (x : A) (l : list A) :
  Sorted (not_after lt) l -> Sorted (not_after lt) (insert_by lt x l).
Proof.
  induction l as [|y l IH]; intros Hs; cbn.
  - repeat constructor.
  - destruct (lt y x) eqn:E.
    + inversion Hs as [|? ? Hs' Hhd]; subst.
      constructor; [apply IH, Hs'|].
      destruct l as [|z l]; cbn.
      * constructor. left. exact E.
      * destruct (lt z x); constructor.
        -- inversion Hhd; assumption.
        -- left. exact E.
    + constructor; [exact Hs|]. constructor. right. exact E.
Qed.

(** The outcome of the sort is in order, whatever [lt] is. *)
Lemma sort_by_sorted (l : list A) :
  Sorted (not_after lt) (sort_by lt l).
Proof.
  induction l as [|x l IH]; cbn; [constructor|].
  apply insert_by_sorted, IH.
Qed.

(** When any two elements of the list are strictly ordered one way or
    the other and the order is transitive on them, the outcome is
    strictly ascending. *)
Lemma insert_by_strict (x : A) (l : list A) :
  (forall a b c, In a (x :: l) -> In b (x :: l) -> In c (x :: l) ->
                 lt a b = true -> lt b c = true -> lt a c = true) ->
  Forall (fun y => lt x y = true \/ lt y x = true) l ->
  StronglySorted (fun a b => lt a b = true) l ->
  StronglySorted (fun a b => lt a b = true) (insert_by lt x l).
Proof.
  intros Htrans Htot Hs.
  induction l as [|y l IH]; cbn.
  - repeat constructor.
  - inversion Hs as [|? ? Hs' Hall]; subst.
    inversion Htot as [|? ? Hy Htot']; subst.
    destruct (lt y x) eqn:E.
    + constructor.
      * apply IH; [|exact Htot'|exact Hs'].
        intros a b c Ha Hb Hc. apply Htrans; cbn in *; tauto.
      * apply Forall_forall. intros z Hz.
        apply (Permutation_in _ (insert_by_perm x l)) in Hz.
        destruct Hz as [<-|Hz]; [exact E|].
        rewrite Forall_forall in Hall. apply Hall, Hz.
    + destruct Hy as [Hy|Hy]; [|congruence].
      constructor; [exact Hs|].
      constructor; [exact Hy|].
      apply Forall_forall. intros z Hz.
      rewrite Forall_forall in Hall.
      apply (Htrans x y z); cbn; auto.
Qed.

Lemma sort_by_strict (l : list A) :
  (forall a b c, In a l -> In b l -> In c l ->
                 lt a b = true -> lt b c = true -> lt a c = true) ->
  ForallOrdPairs (fun x y => lt x y = true \/ lt y x = true) l ->
  StronglySorted (fun a b => lt a b = true) (sort_by lt l).
Proof.
  intros Htrans Htot.
  induction l as [|x l IH]; [constructor|].
  change (sort_by lt (x :: l)) with (insert_by lt x (sort_by lt l)).
  inversion Htot as [|? ? Hx Htot']; subst.
  apply insert_by_strict.
  - intros a b c Ha Hb Hc. apply Htrans.
    + destruct Ha as [<-|Ha]; [left; reflexivity|].
      right. apply (proj1 (sort_by_In l a)), Ha.
    + destruct Hb as [<-|Hb]; [left; reflexivity|].
      right. apply (proj1 (sort_by_In l b)), Hb.
    + destruct Hc as [<-|Hc]; [left; reflexivity|].
      right. apply (proj1 (sort_by_In l c)), Hc.
  - apply Forall_forall. intros y Hy. apply (proj1 (sort_by_In l y)) in Hy.
    rewrite Forall_forall in Hx. apply Hx, Hy.
  - apply IH; [|exact Htot'].
    intros a b c Ha Hb Hc. apply Htrans; right; assumption.
Qed.

End SortFacts.

(** ** The order of strings *)

Lemma str_ltb_trans (a b c : string) :
  String.ltb a b = true -> String.ltb b c = true -> String.ltb a c = true.
Proof.
  unfold String.ltb. intros Hab Hbc.
  assert (H1 : String_as_OT.lt a b).
  { apply String_as_OT.cmp_lt. unfold String_as_OT.cmp.
    destruct (String.compare a b); congruence. }
  assert (H2 : String_as_OT.lt b c).
  { apply String_as_OT.cmp_lt. unfold String_as_OT.cmp.
    destruct (String.compare b c); congruence. }
  pose proof (String_as_OT.lt_trans _ _ _ H1 H2) as H3.
  apply String_as_OT.cmp_lt in H3. unfold String_as_OT.cmp in H3.
  rewrite H3. reflexivity.
Qed.

Lemma str_ltb_total (a b : string) :
  a <> b -> String.ltb a b = true \/ String.ltb b a = true.
Proof.
  intros Hne. unfold String.ltb.
  rewrite (String.compare_antisym b a).
  destruct (String.compare a b) eqn:E; cbn; auto.
  apply String.compare_eq_iff in E. contradiction.
Qed.

Lemma str_ltb_irrefl (a : string) : String.ltb a a = false.
Proof.
  unfold String.ltb.
  assert (E : String.compare a a = Eq)
    by (apply (String_as_OT.cmp_eq a a); reflexivity).
  rewrite E. reflexivity.
Qed.

(** ** The overrides branch *)

Lemma all_strs_map (l : list pyvalue) (names : list string) :
  Py.all_strs l = Ok names -> l = map VStr names.
Proof.
  revert names. induction l as [|x l IH]; intros names; cbn.
  - intros [= <-]. reflexivity.
  - destruct x; try discriminate.
    destruct (Py.all_strs l) as [ss|]; cbn; [|discriminate].
    intros [= <-]. cbn. f_equal. apply IH. reflexivity.
Qed.

Lemma all_strs_of_map (names : list string) :
  Py.all_strs (map VStr names) = Ok names.
Proof.
  induction names as [|n names IH]; cbn; [reflexivity|].
  rewrite IH. reflexivity.
Qed.

Lemma all_comparable_strs (names : list string) :
  Py.all_comparable (map VStr names) = true.
Proof.
  induction names as [|n names IH]; cbn; [reflexivity|].
  rewrite IH, andb_true_r. apply forallb_forall.
  intros x Hx. apply in_map_iff in Hx. destruct Hx as (m & <- & _).
  reflexivity.
Qed.

Lemma sort_by_strs (names : list string) :
  sort_by Py.ltb (map VStr names) = map VStr (sort_by String.ltb names).
Proof.
  induction names as [|n names IH]; cbn; [reflexivity|].
  change (fold_right (insert_by Py.ltb) [] (map VStr names))
    with (sort_by Py.ltb (map VStr names)).
  change (fold_right (insert_by String.ltb) [] names)
    with (sort_by String.ltb names).
  rewrite IH. generalize (sort_by String.ltb names) as l.
  induction l as [|m l IHl]; cbn; [reflexivity|].
  change (Py.ltb (VStr m) (VStr n)) with (String.ltb m n).
  destruct (String.ltb m n); cbn; [|reflexivity].
  rewrite IHl. reflexivity.
Qed.

(** The dedup key of a list of strings. *)
Lemma overrides_dedup_key_strs (files : list pyvalue) (names : list string) :
  Py.all_strs files = Ok names ->
  overrides_dedup_key (VList files)
  = Ok (PyStr.join ":" (sort_by String.ltb names)).
Proof.
  intros H. apply all_strs_map in H. subst files.
  unfold overrides_dedup_key. cbn [Py.sorted_value]. unfold Py.sorted.
  rewrite all_comparable_strs. cbn [bind].
  rewrite sort_by_strs. unfold Py.join. rewrite all_strs_of_map.
  reflexivity.
Qed.

Lemma override_item_cases (item : pyvalue) :
  files_well_formed item = true -> exists o, override_item item o.
Proof.
  intros Hwf. destruct item as [| | | |items|entries];
    try (exists None; constructor; [reflexivity | exact I]).
  cbn in Hwf.
  destruct (dict_get "files" entries) as [files|] eqn:Hf.
  - destruct files as [| | | |files|]; try discriminate.
    destruct (Py.all_strs files) as [names|] eqn:Hn; [|discriminate].
    exists (Some (PyStr.join ":" (sort_by String.ltb names))).
    apply (override_keyed (VDict entries) entries (VList files) _ eq_refl Hf).
    + apply overrides_dedup_key_strs, Hn.
    + cbn. rewrite Hf, Hn. reflexivity.
  - exists None. constructor; [|exact Hf]. cbn. rewrite Hf. reflexivity.
Qed.

Lemma overrides_add_base_step (item : pyvalue) (rest : list pyvalue)
    (acc : dict pyvalue) (o : option string) :
  override_item item o ->
  overrides_add_base (item :: rest) acc
  = overrides_add_base rest
      match o with
      | Some k => dict_set k item acc
      | None => acc
      end.
Proof.
  intros [entries files k -> Hf Hk _ | _ Hnone]; cbn.
  - rewrite Hf, Hk. reflexivity.
  - destruct item; try reflexivity. rewrite Hnone. reflexivity.
Qed.

Lemma overrides_add_update_step (item : pyvalue) (rest : list pyvalue)
    (acc : dict pyvalue) (o : option string) :
  override_item item o ->
  overrides_add_update (item :: rest) acc
  = overrides_add_update rest
      match o with
      | Some k => if dict_mem k acc then acc else dict_set k item acc
      | None => acc
      end.
Proof.
  intros [entries files k -> Hf Hk _ | _ Hnone]; cbn.
  - rewrite Hf, Hk. cbn [bind]. destruct (dict_mem k acc); reflexivity.
  - destruct item; try reflexivity. rewrite Hnone. reflexivity.
Qed.

Lemma dict_mem_false {A : Type} (d : dict A) (k : string) :
  dict_mem k d = false -> dict_get k d = None.
Proof. unfold dict_mem. destruct (dict_get k d); [discriminate | reflexivity]. Qed.

Lemma dict_mem_true {A : Type} (d : dict A) (k : string) :
  dict_mem k d = true -> exists v, dict_get k d = Some v.
Proof. unfold dict_mem. destruct (dict_get k d); [eauto | discriminate]. Qed.

(** The first loop: the base items enter the dictionary under their
    identities. *)
Lemma overrides_add_base_spec (items : list pyvalue) :
  Forall (fun x => files_well_formed x = true) items ->
  forall acc : dict pyvalue,
  exists acc' : dict pyvalue,
    overrides_add_base items acc = Ok acc'
    /\ (NoDup (dict_keys acc) -> NoDup (dict_keys acc'))
    /\ (forall k y, dict_get k acc' = Some y ->
                    dict_get k acc = Some y
                    \/ (In y items /\ identity y = Some k))
    /\ (forall k, dict_mem k acc = true -> dict_mem k acc' = true)
    /\ (forall x k, In x items -> identity x = Some k ->
                    dict_mem k acc' = true).
Proof.
  induction 1 as [|item rest Hwf _ IH]; intros acc.
  - exists acc. cbn. repeat split; auto; try contradiction.
  - destruct (override_item_cases item Hwf) as [o Ho].
    rewrite (overrides_add_base_step item rest acc o Ho).
    destruct o as [k0|].
    + destruct (IH (dict_set k0 item acc))
        as (acc' & Hrun & Hnd & Hget & Hmem & Hcov).
      exists acc'. split; [exact Hrun|].
      assert (Hid : identity item = Some k0)
        by (inversion Ho; assumption).
      split; [|split; [|split]].
      * intros H. apply Hnd, dict_set_NoDup, H.
      * intros k y Hy. destruct (Hget k y Hy) as [Hin | [Hin Hk]].
        -- rewrite dict_get_set in Hin.
           destruct (String.eqb_spec k k0) as [E|E].
           ++ injection Hin as <-. subst k. right. split; [left|]; auto.
           ++ left. exact Hin.
        -- right. split; [right|]; assumption.
      * intros k Hk. apply Hmem. rewrite dict_mem_set, Hk.
        apply orb_true_r.
      * intros x k [<-|Hx] Hk.
        -- apply Hmem. rewrite dict_mem_set.
           assert (E : k = k0) by congruence. subst k.
           rewrite String.eqb_refl. reflexivity.
        -- apply (Hcov x k Hx Hk).
    + destruct (IH acc) as (acc' & Hrun & Hnd & Hget & Hmem & Hcov).
      exists acc'. split; [exact Hrun|].
      assert (Hid : identity item = None) by (inversion Ho; assumption).
      split; [exact Hnd|]. split; [|split; [exact Hmem|]].
      * intros k y Hy. destruct (Hget k y Hy) as [Hin | [Hin Hk]];
          [left | right; split; [right|]]; assumption.
      * intros x k [<-|Hx] Hk; [congruence|]. apply (Hcov x k Hx Hk).
Qed.

(** The second loop: an update item enters only under an identity that is
    not there yet, and no entry is replaced. *)
Lemma overrides_add_update_spec (items : list pyvalue) :
  Forall (fun x => files_well_formed x = true) items ->
  forall acc : dict pyvalue,
  exists acc' : dict pyvalue,
    overrides_add_update items acc = Ok acc'
    /\ (NoDup (dict_keys acc) -> NoDup (dict_keys acc'))
    /\ (forall k y, dict_get k acc' = Some y ->
                    dict_get k acc = Some y
                    \/ (dict_get k acc = None /\ In y items
                        /\ identity y = Some k))
    /\ (forall k, dict_mem k acc = true -> dict_mem k acc' = true)
    /\ (forall x k, In x items -> identity x = Some k ->
                    dict_mem k acc' = true).
Proof.
  induction 1 as [|item rest Hwf _ IH]; intros acc.
  - exists acc. cbn. repeat split; auto; try contradiction.
  - destruct (override_item_cases item Hwf) as [o Ho].
    rewrite (overrides_add_update_step item rest acc o Ho).
    destruct o as [k0|].
    + assert (Hid : identity item = Some k0)
        by (inversion Ho; assumption).
      destruct (dict_mem k0 acc) eqn:Hk0.
      * destruct (IH acc) as (acc' & Hrun & Hnd & Hget & Hmem & Hcov).
        exists acc'. split; [exact Hrun|]. split; [exact Hnd|].
        split; [|split; [exact Hmem|]].
        -- intros k y Hy. destruct (Hget k y Hy) as [Hin | (Hn & Hin & Hk)];
             [left | right; repeat split; [|right|]]; assumption.
        -- intros x k [<-|Hx] Hk.
           ++ apply Hmem. congruence.
           ++ apply (Hcov x k Hx Hk).
      * destruct (IH (dict_set k0 item acc))
          as (acc' & Hrun & Hnd & Hget & Hmem & Hcov).
        exists acc'. split; [exact Hrun|].
        split; [|split; [|split]].
        -- intros H. apply Hnd, dict_set_NoDup, H.
        -- intros k y Hy.
           destruct (Hget k y Hy) as [Hin | (Hn & Hin & Hk)];
             rewrite dict_get_set in *;
             destruct (String.eqb_spec k k0) as [E|E].
           ++ injection Hin as <-. subst k. right.
              split; [apply dict_mem_false, Hk0|]. split; [left|]; auto.
           ++ left. exact Hin.
           ++ discriminate.
           ++ right. repeat split; [|right|]; assumption.
        -- intros k Hk. apply Hmem. rewrite dict_mem_set, Hk.
           apply orb_true_r.
        -- intros x k [<-|Hx] Hk.
           ++ apply Hmem. rewrite dict_mem_set.
              assert (E : k = k0) by congruence. subst k.
              rewrite String.eqb_refl. reflexivity.
           ++ apply (Hcov x k Hx Hk).
    + destruct (IH acc) as (acc' & Hrun & Hnd & Hget & Hmem & Hcov).
      exists acc'. split; [exact Hrun|].
      assert (Hid : identity item = None) by (inversion Ho; assumption).
      split; [exact Hnd|]. split; [|split; [exact Hmem|]].
      * intros k y Hy. destruct (Hget k y Hy) as [Hin | (Hn & Hin & Hk)];
          [left | right; repeat split; [|right|]]; assumption.
      * intros x k [<-|Hx] Hk; [congruence|]. apply (Hcov x k Hx Hk).
Qed.

Lemma StronglySorted_map {A B : Type} (f : A -> B) (R : B -> B -> Prop)
    (l : list A) :
  StronglySorted (fun a b => R (f a) (f b)) l -> StronglySorted R (map f l).
Proof.
  induction 1 as [|a l Hs IH Hall]; cbn; constructor; [exact IH|].
  apply Forall_map. exact Hall.
Qed.

(** Two items of a dictionary are strictly ordered by their keys. *)
Lemma items_ordered (d : dict pyvalue) :
  NoDup (dict_keys d) ->
  ForallOrdPairs (fun a b => item_ltb a b = true \/ item_ltb b a = true) d.
Proof.
  induction d as [|a d IH]; cbn; intros Hnd; [constructor|].
  inversion Hnd as [|? ? Ha Hnd']; subst.
  constructor; [|apply IH, Hnd'].
  apply Forall_forall. intros b Hb. apply str_ltb_total.
  intros E. apply Ha. rewrite E. apply in_map, Hb.
Qed.

Lemma sorted_items_strict (d : dict pyvalue) :
  NoDup (dict_keys d) ->
  StronglySorted (fun a b => String.ltb a b = true)
    (dict_keys (sorted_items d)).
Proof.
  intros Hnd. apply StronglySorted_map.
  apply (sort_by_strict item_ltb d); [|apply items_ordered, Hnd].
  intros a b c _ _ _. apply str_ltb_trans.
Qed.

(** The overrides branch on well-formed entries. *)
Lemma merge_overrides_spec (base_val value : list pyvalue) :
  Forall (fun x => files_well_formed x = true) (base_val ++ value) ->
  exists (merged : list pyvalue) (ids : list string),
    merge_overrides base_val value = Ok merged
    /\ map identity merged = map Some ids
    /\ StronglySorted (fun a b => String.ltb a b = true) ids
    /\ (forall y, In y merged -> In y base_val \/ In y value)
    /\ (forall x k, In x (base_val ++ value) -> identity x = Some k ->
                    exists y, In y merged /\ identity y = Some k)
    /\ (forall y k, In y merged -> identity y = Some k ->
                    (exists x, In x base_val /\ identity x = Some k) ->
                    In y base_val).
Proof.
  intros Hwf. apply Forall_app in Hwf. destruct Hwf as [Hb Hu].
  destruct (overrides_add_base_spec base_val Hb [])
    as (acc1 & Hrun1 & Hnd1 & Hget1 & Hmem1 & Hcov1).
  destruct (overrides_add_update_spec value Hu acc1)
    as (acc2 & Hrun2 & Hnd2 & Hget2 & Hmem2 & Hcov2).
  assert (Hnodup : NoDup (dict_keys acc2))
    by (apply Hnd2, Hnd1; constructor).
  assert (Hentry : forall k y, In (k, y) (sorted_items acc2) ->
             identity y = Some k
             /\ (In y base_val \/ In y value)
             /\ (dict_mem k acc1 = true -> In y base_val)).
  { intros k y Hin.
    apply (Permutation_in _ (sort_by_perm item_ltb acc2)) in Hin.
    apply (dict_In_get acc2 k y Hnodup) in Hin.
    destruct (Hget2 k y Hin) as [H1 | (Hn & Hv & Hk)].
    - destruct (Hget1 k y H1) as [H0 | [Hbase Hk]]; [discriminate|].
      repeat split; auto.
    - repeat split; auto. intros Hm. apply dict_mem_true in Hm.
      destruct Hm as [v Hv']. congruence. }
  exists (dict_values (sorted_items acc2)), (dict_keys (sorted_items acc2)).
  unfold merge_overrides. rewrite Hrun1. cbn [bind]. rewrite Hrun2.
  cbn [bind]. split; [reflexivity|].
  split; [|split; [apply sorted_items_strict, Hnodup|split; [|split]]].
  - unfold dict_values, dict_keys. rewrite !map_map.
    apply map_ext_in. intros [k y] Hin. apply (Hentry k y Hin).
  - intros y Hy. apply in_map_iff in Hy. destruct Hy as ([k y'] & <- & Hin).
    apply (Hentry k y' Hin).
  - intros x k Hx Hk.
    assert (Hm : dict_mem k acc2 = true).
    { apply in_app_or in Hx. destruct Hx as [Hx|Hx].
      - apply Hmem2, (Hcov1 x k Hx Hk).
      - apply (Hcov2 x k Hx Hk). }
    apply dict_mem_true in Hm. destruct Hm as [y Hy].
    apply dict_get_In in Hy.
    apply (Permutation_in _ (Permutation_sym (sort_by_perm item_ltb acc2)))
      in Hy.
    exists y. split; [|apply (Hentry k y Hy)].
    apply in_map_iff. exists (k, y). auto.
  - intros y k Hy Hk [x [Hx Hxk]].
    apply in_map_iff in Hy. destruct Hy as ([k' y'] & <- & Hin).
    destruct (Hentry k' y' Hin) as (Hid & _ & Hbase). cbn in Hk.
    assert (E : k' = k) by congruence. subst k'.
    apply Hbase, (Hcov1 x k Hx Hxk).
Qed.

Lemma identity_carries_files (item : pyvalue) (k : string) :
  identity item = Some k -> carries_files item = true.
Proof.
  destruct item as [| | | | |entries]; try discriminate.
  cbn. unfold dict_mem. destruct (dict_get "files" entries); [reflexivity|].
  discriminate.
Qed.

(** C8.  Under strategy [merge] the array of the [overrides] key becomes
    the list of entries in ascending order of their identities, the sorted
    names of ["files"] joined with colons: every entry of the result comes
    from one of the two arrays and carries ["files"], so the elements that
    lack the field are dropped; every identity of either array is there
    once; the entry of an identity the base array has is a base entry, and
    otherwise an update entry. *)
Theorem overrides_merge_by_identity (L : SemverLib) (res : dict pyvalue)
    (base_val value : list pyvalue) :
  dict_get "overrides" res = Some (VList base_val) ->
  Forall (fun x => files_well_formed x = true) (base_val ++ value) ->
  exists (merged : list pyvalue) (ids : list string),
    _deep_merge_value "merge" "overrides" (VList value) res
    = Ok (dict_set "overrides" (VList merged) res)
    /\ map identity merged = map Some ids
    /\ StronglySorted (fun a b => String.ltb a b = true) ids
    /\ (forall y, In y merged -> In y base_val \/ In y value)
    /\ (forall y, In y merged -> carries_files y = true)
    /\ (forall x k, In x (base_val ++ value) -> identity x = Some k ->
                    exists y, In y merged /\ identity y = Some k)
    /\ (forall y k, In y merged -> identity y = Some k ->
                    (exists x, In x base_val /\ identity x = Some k) ->
                    In y base_val)
    /\ (forall y k, In y merged -> identity y = Some k ->
                    ~ (exists x, In x base_val /\ identity x = Some k) ->
                    In y value).
Proof.
  intros Hget Hwf.
  destruct (merge_overrides_spec base_val value Hwf)
    as (merged & ids & Hrun & Hids & Hsorted & Hfrom & Hcov & Hbase).
  exists merged, ids.
  split; [|split; [exact Hids|split; [exact Hsorted|split; [exact Hfrom|]]]].
  - cbn [_deep_merge_value]. rewrite Hget.
    change (is_dependency_key "overrides") with false.
    cbn [String.eqb Ascii.eqb Bool.eqb]. rewrite Hrun. reflexivity.
  - split; [|split; [exact Hcov|split; [exact Hbase|]]].
    + intros y Hy.
      assert (Hid : In (identity y) (map Some ids))
        by (rewrite <- Hids; apply in_map, Hy).
      apply in_map_iff in Hid. destruct Hid as (k & Hk & _).
      apply (identity_carries_files y k). symmetry. exact Hk.
    + intros y k Hy Hk Hno.
      destruct (Hfrom y Hy) as [Hb|Hv]; [|exact Hv].
      exfalso. apply Hno. exists y. auto.
Qed.

(** ** The order of hashable values *)

Lemma py_ltb_trans (a b c : pyvalue) :
  Py.hashable a = true -> Py.hashable b = true -> Py.hashable c = true ->
  Py.ltb a b = true -> Py.ltb b c = true -> Py.ltb a c = true.
Proof.
  unfold Py.ltb.
  destruct a, b, c; intros Ha Hb Hc Hab Hbc; cbn in *; try discriminate;
    try (apply Z.ltb_lt; apply Z.ltb_lt in Hab; apply Z.ltb_lt in Hbc; lia).
  eapply str_ltb_trans; eassumption.
Qed.

Lemma py_ltb_total (a b : pyvalue) :
  Py.hashable a = true -> Py.hashable b = true ->
  Py.comparable a b = true -> Py.eq a b = false ->
  Py.ltb a b = true \/ Py.ltb b a = true.
Proof.
  unfold Py.ltb, Py.comparable.
  destruct a, b; intros Ha Hb Hc He; cbn in *; try discriminate;
    try (apply Z.eqb_neq in He;
         rewrite !Z.ltb_lt; lia).
  - destruct b, b0; cbn in *; try discriminate; auto.
  - apply str_ltb_total. apply String.eqb_neq, He.
Qed.

Lemma py_eq_refl (a : pyvalue) : Py.hashable a = true -> Py.eq a a = true.
Proof.
  destruct a; intros H; cbn in *; try discriminate; try reflexivity.
  - apply Bool.eqb_reflx.
  - apply Z.eqb_refl.
  - apply String.eqb_refl.
Qed.

Lemma eqb_b2z (x y : bool) : Bool.eqb x y = Z.eqb (Z.b2z x) (Z.b2z y).
Proof. destruct x, y; reflexivity. Qed.

Lemma py_eq_trans (a b c : pyvalue) :
  Py.hashable a = true -> Py.hashable b = true -> Py.hashable c = true ->
  Py.eq a b = true -> Py.eq b c = true -> Py.eq a c = true.
Proof.
  destruct a, b, c; intros Ha Hb Hc Hab Hbc;
    cbn [Py.eq Py.hashable] in *; try discriminate; try reflexivity;
    rewrite ?eqb_b2z in *;
    repeat match goal with
      | H : Z.eqb _ _ = true |- _ => apply Z.eqb_eq in H
      end;
    try (apply Z.eqb_eq; lia).
  apply String.eqb_eq in Hab. apply String.eqb_eq in Hbc. subst.
  apply String.eqb_refl.
Qed.

(** ** The regular list branch *)

Lemma all_comparable_pairs (l : list pyvalue) :
  Py.all_comparable l = true
  <-> ForallOrdPairs (fun x y => Py.comparable x y = true) l.
Proof.
  induction l as [|x l IH]; cbn.
  - split; [constructor | reflexivity].
  - rewrite andb_true_iff, forallb_forall, IH. split.
    + intros [Hx Hl]. constructor; [apply Forall_forall, Hx | exact Hl].
    + intros H. inversion H as [|? ? Hx Hl]; subst.
      split; [apply Forall_forall, Hx | exact Hl].
Qed.

Lemma pairs_filter {A : Type} (R : A -> A -> Prop) (f : A -> bool)
    (l : list A) :
  ForallOrdPairs R l -> ForallOrdPairs R (filter f l).
Proof.
  induction 1 as [|x l Hx Hl IH]; cbn; [constructor|].
  destruct (f x); [|exact IH].
  constructor; [|exact IH].
  rewrite Forall_forall in *. intros y Hy. apply filter_In in Hy.
  apply Hx, Hy.
Qed.

Lemma dedup_In (l : list pyvalue) (y : pyvalue) :
  In y (Py.dedup l) -> In y l.
Proof.
  revert y. induction l as [|x l IH]; intros y; cbn; [tauto|].
  intros [E|Hy]; [left; exact E|].
  apply filter_In in Hy. right. apply IH, Hy.
Qed.

Lemma dedup_pairs (R : pyvalue -> pyvalue -> Prop) (l : list pyvalue) :
  ForallOrdPairs R l -> ForallOrdPairs R (Py.dedup l).
Proof.
  induction 1 as [|x l Hx Hl IH]; cbn; [constructor|].
  constructor; [|apply pairs_filter, IH].
  rewrite Forall_forall in *. intros y Hy. apply filter_In in Hy.
  apply Hx, dedup_In, Hy.
Qed.

(** No two elements of [dedup l] are equal. *)
Lemma dedup_distinct (l : list pyvalue) :
  ForallOrdPairs (fun x y => Py.eq x y = false) (Py.dedup l).
Proof.
  induction l as [|x l IH]; cbn; [constructor|].
  constructor; [|apply pairs_filter, IH].
  apply Forall_forall. intros y Hy. apply filter_In in Hy.
  destruct Hy as [_ Hy]. apply negb_true_iff, Hy.
Qed.

(** Every element of [l] has an equal element in [dedup l]. *)
Lemma dedup_covers (l : list pyvalue) :
  Forall (fun x => Py.hashable x = true) l ->
  forall x, In x l -> exists y, In y (Py.dedup l) /\ Py.eq y x = true.
Proof.
  induction 1 as [|x0 l Hx0 Hl IH]; intros x; cbn; [tauto|].
  intros [<-|Hx].
  - exists x0. split; [left; reflexivity | apply py_eq_refl, Hx0].
  - destruct (IH x Hx) as (y & Hy & He).
    destruct (Py.eq x0 y) eqn:E.
    + exists x0. split; [left; reflexivity|].
      rewrite Forall_forall in Hl.
      apply (py_eq_trans x0 y x); auto using dedup_In.
    + exists y. split; [|exact He]. right.
      apply filter_In. split; [exact Hy|]. rewrite E. reflexivity.
Qed.

Lemma hashable_pairs_ordered (d : list pyvalue) :
  Forall (fun x => Py.hashable x = true) d ->
  ForallOrdPairs (fun x y => Py.comparable x y = true) d ->
  ForallOrdPairs (fun x y => Py.eq x y = false) d ->
  ForallOrdPairs (fun x y => Py.ltb x y = true \/ Py.ltb y x = true) d.
Proof.
  induction d as [|x d IH]; intros Hh Hc He; [constructor|].
  inversion Hh as [|? ? Hx Hh']; subst.
  inversion Hc as [|? ? Hcx Hc']; subst.
  inversion He as [|? ? Hex He']; subst.
  constructor; [|apply IH; assumption].
  rewrite Forall_forall in *. intros y Hy.
  apply py_ltb_total; auto.
Qed.

Lemma StronglySorted_weaken {A : Type} (R R' : A -> A -> Prop) (l : list A) :
  (forall a b, R a b -> R' a b) ->
  StronglySorted R l -> StronglySorted R' l.
Proof.
  intros HR. induction 1 as [|a l Hs IH Hall]; constructor; [exact IH|].
  rewrite Forall_forall in *. auto.
Qed.

Lemma py_ltb_lt (a b : pyvalue) : Py.ltb a b = true -> Py.lt a b = Ok true.
Proof.
  unfold Py.ltb. destruct (Py.lt a b) as [r|]; [|discriminate].
  intros ->. reflexivity.
Qed.

(** The regular list merge when every element can be hashed: the
    deduplicated concatenation in strictly ascending order. *)
Lemma merge_lists_hashable (base_val value : list pyvalue) :
  forallb Py.hashable (base_val ++ value) = true ->
  Py.all_comparable (base_val ++ value) = true ->
  merge_lists base_val value
  = Ok (sort_by Py.ltb (Py.dedup (base_val ++ value)))
  /\ StronglySorted (fun x y => Py.lt x y = Ok true)
       (sort_by Py.ltb (Py.dedup (base_val ++ value))).
Proof.
  intros Hh Hc. set (l := base_val ++ value) in *.
  assert (Hhl : Forall (fun x => Py.hashable x = true) l)
    by (apply Forall_forall, forallb_forall, Hh).
  assert (Hhd : Forall (fun x => Py.hashable x = true) (Py.dedup l)).
  { rewrite Forall_forall in *. intros y Hy. apply Hhl, dedup_In, Hy. }
  assert (Hcd : ForallOrdPairs (fun x y => Py.comparable x y = true)
                  (Py.dedup l))
    by (apply dedup_pairs, all_comparable_pairs, Hc).
  split.
  - unfold merge_lists, Py.list_set. fold l. rewrite Hh.
    cbn [suppress_TypeError bind]. unfold Py.sorted.
    apply all_comparable_pairs in Hcd. rewrite Hcd. reflexivity.
  - apply (StronglySorted_weaken (fun x y => Py.ltb x y = true));
      [apply py_ltb_lt|].
    apply sort_by_strict.
    + rewrite Forall_forall in Hhd. intros a b c Ha Hb Hc'.
      apply py_ltb_trans; auto.
    + apply hashable_pairs_ordered; auto using dedup_distinct.
Qed.

(** The regular list merge when some element cannot be hashed: the
    concatenation, sorted, with its duplicates. *)
Lemma merge_lists_unhashable (base_val value : list pyvalue) :
  forallb Py.hashable (base_val ++ value) = false ->
  Py.all_comparable (base_val ++ value) = true ->
  merge_lists base_val value = Ok (sort_by Py.ltb (base_val ++ value)).
Proof.
  intros Hh Hc. unfold merge_lists, Py.list_set. rewrite Hh.
  cbn [suppress_TypeError bind]. unfold Py.sorted. rewrite Hc. reflexivity.
Qed.

(** ** The iteration order of a set does not show

    [list(set(l))] lists the elements in hash order.  Whatever that order
    is, [sorted] returns the same list, because the elements of the set
    are hashable, differ from one another, and are compared by a strict
    order. *)

Lemma py_ltb_asym (a b : pyvalue) :
  Py.hashable a = true -> Py.hashable b = true ->
  Py.ltb a b = true -> Py.ltb b a = false.
Proof.
  intros Ha Hb Hab. destruct (Py.ltb b a) eqn:Hba; [|reflexivity].
  pose proof (py_ltb_trans a b a Ha Hb Ha Hab Hba) as Haa.
  unfold Py.ltb in Haa. destruct a; cbn in *; try discriminate.
  - destruct b0; discriminate.
  - rewrite Z.ltb_irrefl in Haa. discriminate.
  - rewrite str_ltb_irrefl in Haa. discriminate.
Qed.

Lemma py_comparable_sym (a b : pyvalue) :
  Py.comparable a b = Py.comparable b a.
Proof.
  unfold Py.comparable. destruct (Py.lt a b), (Py.lt b a); reflexivity.
Qed.

Lemma pairs_of_NoDup {A : Type} (R : A -> A -> Prop) (p : list A) :
  NoDup p ->
  (forall x y, In x p -> In y p -> x = y \/ R x y) ->
  ForallOrdPairs R p.
Proof.
  induction 1 as [|x p Hx Hnd IH]; intros HR; constructor.
  - apply Forall_forall. intros y Hy.
    destruct (HR x y (or_introl eq_refl) (or_intror Hy)) as [E|E];
      [subst; contradiction | exact E].
  - apply IH. intros a b Ha Hb. apply HR; right; assumption.
Qed.

Lemma pairs_perm {A : Type} (R : A -> A -> Prop) (l p : list A) :
  (forall a b, R a b -> R b a) ->
  NoDup p -> Permutation p l ->
  ForallOrdPairs R l -> ForallOrdPairs R p.
Proof.
  intros Hsym Hnd Hperm Hl. apply pairs_of_NoDup; [exact Hnd|].
  intros x y Hx Hy.
  apply (Permutation_in _ Hperm) in Hx.
  apply (Permutation_in _ Hperm) in Hy.
  destruct (ForallOrdPairs_In Hl x y Hx Hy) as [E|[E|E]]; auto.
Qed.

Lemma dedup_NoDup (l : list pyvalue) :
  Forall (fun x => Py.hashable x = true) l -> NoDup (Py.dedup l).
Proof.
  induction 1 as [|x l Hx Hl IH]; cbn; constructor.
  - intros Hin. apply filter_In in Hin. destruct Hin as [_ Hin].
    rewrite (py_eq_refl x Hx) in Hin. discriminate.
  - apply NoDup_filter, IH.
Qed.

(** A strictly ascending list is determined by its elements. *)
Lemma strict_sorted_unique {A : Type} (lt : A -> A -> bool) (l1 l2 : list A) :
  (forall a b, In a l1 -> In b l1 -> lt a b = true -> lt b a = false) ->
  StronglySorted (fun a b => lt a b = true) l1 ->
  StronglySorted (fun a b => lt a b = true) l2 ->
  Permutation l1 l2 -> l1 = l2.
Proof.
  revert l2. induction l1 as [|a l1 IH]; intros l2 Hasym H1 H2 Hperm.
  - apply Permutation_nil in Hperm. subst. reflexivity.
  - destruct l2 as [|b l2];
      [apply Permutation_sym, Permutation_nil in Hperm; discriminate|].
    inversion H1 as [|? ? H1' Ha]; subst.
    inversion H2 as [|? ? H2' Hb]; subst.
    rewrite Forall_forall in Ha, Hb.
    assert (E : a = b).
    { assert (Hain : In a (b :: l2))
        by (apply (Permutation_in _ Hperm); left; reflexivity).
      assert (Hbin : In b (a :: l1))
        by (apply (Permutation_in _ (Permutation_sym Hperm)); left;
            reflexivity).
      destruct Hain as [E|Hain]; [symmetry; exact E|].
      destruct Hbin as [E|Hbin]; [exact E|].
      pose proof (Hb a Hain) as Hba. pose proof (Ha b Hbin) as Hab.
      assert (Hf : lt b a = false)
        by (apply Hasym;
            [left; reflexivity | right; exact Hbin | exact Hab]).
      congruence. }
    subst b. f_equal. apply IH; auto.
    + intros x y Hx Hy. apply Hasym; right; assumption.
    + apply (Permutation_cons_inv Hperm).
Qed.

Lemma sorted_of_set_order (l p : list pyvalue) :
  forallb Py.hashable l = true ->
  Py.all_comparable l = true ->
  Permutation p (Py.dedup l) ->
  Py.sorted p = Py.sorted (Py.dedup l).
Proof.
  intros Hh Hc Hperm. set (d := Py.dedup l) in *.
  assert (Hhl : Forall (fun x => Py.hashable x = true) l)
    by (apply Forall_forall, forallb_forall, Hh).
  assert (Hhd : forall x, In x d -> Py.hashable x = true).
  { intros x Hx. rewrite Forall_forall in Hhl. apply Hhl, dedup_In, Hx. }
  assert (Hhp : forall x, In x p -> Py.hashable x = true).
  { intros x Hx. apply Hhd, (Permutation_in _ Hperm), Hx. }
  assert (Hndd : NoDup d) by (apply dedup_NoDup, Hhl).
  assert (Hndp : NoDup p)
    by (apply (Permutation_NoDup (Permutation_sym Hperm)), Hndd).
  assert (Hcd : ForallOrdPairs (fun x y => Py.comparable x y = true) d)
    by (apply dedup_pairs, all_comparable_pairs, Hc).
  assert (Hcp : ForallOrdPairs (fun x y => Py.comparable x y = true) p).
  { apply (pairs_perm _ d p); auto.
    intros a b H. rewrite py_comparable_sym. exact H. }
  assert (Hod : ForallOrdPairs
                  (fun x y => Py.ltb x y = true \/ Py.ltb y x = true) d).
  { apply hashable_pairs_ordered;
      [apply Forall_forall, Hhd | exact Hcd | apply dedup_distinct]. }
  assert (Hop : ForallOrdPairs
                  (fun x y => Py.ltb x y = true \/ Py.ltb y x = true) p).
  { apply (pairs_perm _ d p); auto. intros a b; tauto. }
  unfold Py.sorted.
  apply all_comparable_pairs in Hcd. apply all_comparable_pairs in Hcp.
  rewrite Hcd, Hcp. f_equal.
  apply (strict_sorted_unique Py.ltb).
  - intros a b Ha Hb. apply py_ltb_asym; apply Hhp;
      apply (proj1 (sort_by_In Py.ltb p _)); assumption.
  - apply sort_by_strict; [|exact Hop].
    intros a b c Ha Hb Hc'. apply py_ltb_trans; auto.
  - apply sort_by_strict; [|exact Hod].
    intros a b c Ha Hb Hc'. apply py_ltb_trans; auto.
  - rewrite (sort_by_perm Py.ltb p), (sort_by_perm Py.ltb d). exact Hperm.
Qed.

(** ** The deep merger, key by key *)

Section DeepMergeFacts.
Context {L : SemverLib}.

(** A key that [result] lacks is added. *)
Lemma deep_merge_value_new (list_strategy key : string) (value : pyvalue)
    (res : dict pyvalue) :
  dict_get key res = None ->
  _deep_merge_value list_strategy key value res
  = Ok (dict_set key value res).
Proof.
  intros H. destruct value; cbn [_deep_merge_value]; rewrite H; reflexivity.
Qed.

(** A dependency key is handed to [merge_dependencies] whatever the two
    values are. *)
Lemma deep_merge_value_dependency (list_strategy key : string)
    (base_val value : pyvalue) (res : dict pyvalue) :
  is_dependency_key key = true ->
  dict_get key res = Some base_val ->
  _deep_merge_value list_strategy key value res
  = (merged <- merge_dependencies base_val value ;;
     Ok (dict_set key merged res)).
Proof.
  intros Hk H.
  destruct value; cbn [_deep_merge_value]; rewrite H, Hk; reflexivity.
Qed.

(** Under another key, two values that are not two dictionaries nor two
    lists: the update replaces the base. *)
Lemma deep_merge_value_replace (list_strategy key : string)
    (base_val value : pyvalue) (res : dict pyvalue) :
  is_dependency_key key = false ->
  dict_get key res = Some base_val ->
  match base_val, value with
  | VDict _, VDict _ | VList _, VList _ => False
  | _, _ => True
  end ->
  _deep_merge_value list_strategy key value res
  = Ok (dict_set key value res).
Proof.
  intros Hk H Hshape.
  destruct value, base_val; cbn [_deep_merge_value]; rewrite H, Hk;
    try reflexivity; contradiction.
Qed.

(** Under strategy [merge], two lists under a key that is neither a
    dependency key nor [overrides] go through the regular list merge. *)
Lemma deep_merge_value_lists (key : string) (base_val value : list pyvalue)
    (res : dict pyvalue) :
  is_dependency_key key = false ->
  key <> "overrides" ->
  dict_get key res = Some (VList base_val) ->
  _deep_merge_value "merge" key (VList value) res
  = (merged <- merge_lists base_val value ;;
     Ok (dict_set key (VList merged) res)).
Proof.
  intros Hk Ho H. cbn [_deep_merge_value]. rewrite H, Hk.
  apply String.eqb_neq in Ho. rewrite Ho. reflexivity.
Qed.

End DeepMergeFacts.

(** C5, amended.  Under strategy [merge], for a key that is neither
    [overrides] nor a dependency key and two arrays whose elements can be
    compared with one another: when every element can be hashed the result
    is the concatenation without equal elements in strictly ascending
    order; when some element cannot be hashed only the deduplication is
    skipped, and the result is the concatenation sorted in ascending order
    with its duplicates. *)
Theorem list_merge_sorts (L : SemverLib) (key : string) (res : dict pyvalue)
    (base_val value : list pyvalue) :
  is_dependency_key key = false ->
  key <> "overrides" ->
  dict_get key res = Some (VList base_val) ->
  Py.all_comparable (base_val ++ value) = true ->
  exists merged : list pyvalue,
    _deep_merge_value "merge" key (VList value) res
    = Ok (dict_set key (VList merged) res)
    /\ (forallb Py.hashable (base_val ++ value) = true ->
        StronglySorted (fun x y => Py.lt x y = Ok true) merged
        /\ (forall x, In x (base_val ++ value) ->
                      exists y, In y merged /\ Py.eq y x = true)
        /\ (forall y, In y merged -> In y (base_val ++ value)))
    /\ (forallb Py.hashable (base_val ++ value) = false ->
        Permutation merged (base_val ++ value)
        /\ Sorted (not_after Py.ltb) merged).
Proof.
  intros Hk Ho Hget Hc.
  rewrite (deep_merge_value_lists key base_val value res Hk Ho Hget).
  destruct (forallb Py.hashable (base_val ++ value)) eqn:Hh.
  - destruct (merge_lists_hashable base_val value Hh Hc) as [Hrun Hs].
    exists (sort_by Py.ltb (Py.dedup (base_val ++ value))).
    rewrite Hrun. split; [reflexivity|]. split; [|discriminate].
    intros _. split; [exact Hs|]. split.
    + intros x Hx.
      assert (Hall : Forall (fun x => Py.hashable x = true)
                       (base_val ++ value))
        by (apply Forall_forall, forallb_forall, Hh).
      destruct (dedup_covers (base_val ++ value) Hall x Hx) as (y & Hy & He).
      exists y. split; [|exact He].
      apply (proj2 (sort_by_In Py.ltb _ y)), Hy.
    + intros y Hy. apply (proj1 (sort_by_In Py.ltb _ y)) in Hy.
      apply dedup_In, Hy.
  - rewrite (merge_lists_unhashable base_val value Hh Hc).
    exists (sort_by Py.ltb (base_val ++ value)).
    split; [reflexivity|]. split; [discriminate|].
    intros _. split; [apply sort_by_perm | apply sort_by_sorted].
Qed.

(** C1, refuted by evaluation.  The deep merger raises: for a dependency
    key that holds arrays (AttributeError, as [bundledDependencies] does
    in a package.json), for an array that mixes numbers and strings
    (TypeError from [sorted]), and for an [overrides] entry whose
    ["files"] holds a number (TypeError from [join]). *)
Theorem deep_merge_raises (L : SemverLib) (list_strategy : string) :
  deep_merge [("bundledDependencies", VList [VStr "a"])]
    [("bundledDependencies", VList [VStr "b"])] list_strategy
  = Raise AttributeError
  /\ deep_merge [("keywords", VList [VInt 1])]
       [("keywords", VList [VStr "a"])] "merge"
     = Raise TypeError
  /\ deep_merge [("overrides", VList [])]
       [("overrides", VList [VDict [("files", VList [VInt 1])]])] "merge"
     = Raise TypeError.
Proof. repeat split; reflexivity. Qed.

(** C2, refuted by evaluation.  Under a dependency key two scalars are not
    replaced: they are handed to [merge_dependencies], which raises
    AttributeError. *)
Theorem dependency_key_scalars_raise (L : SemverLib) (list_strategy : string) :
  _deep_merge_value list_strategy "bundleDependencies" (VBool false)
    [("bundleDependencies", VBool true)]
  = Raise AttributeError.
Proof. reflexivity. Qed.

(** * The claims on concrete inputs *)

Module Examples.

Import PlainSemver.

(** C3 at ["1.0.0"] against ["1.2.0"] and against ["next"]. *)
Lemma compare_npm_specs_decides_by_anchors_witness :
  compare_npm_specs (L:=Lib) (VStr "1.0.0") (VStr "1.2.0") = Ok 1%Z
  /\ compare_npm_specs (L:=Lib) (VStr "1.0.0") (VStr "next") = Ok 0%Z.
Proof.
  destruct (compare_npm_specs_decides_by_anchors (L:=Lib) "1.0.0" "1.2.0")
    as [Hboth _].
  destruct (compare_npm_specs_decides_by_anchors (L:=Lib) "1.0.0" "next")
    as [_ Hfail].
  split.
  - exact (Hboth (AllOf [Range "==" (v 1 0 0)])
             (AllOf [Range "==" (v 1 2 0)])
             (Some (v 1 0 0)) (Some (v 1 2 0))
             eq_refl eq_refl eq_refl eq_refl).
  - apply Hfail. right. reflexivity.
Defined.

(** C3 as stated fails at [latest] against ["1.0.0"]: the base has no
    anchor and the update has one, so the verdict by anchors is +1, but
    the range of [latest] cannot be constructed and the comparator
    returns 0. *)
Lemma compare_npm_specs_latest_counterexample :
  spec_anchor (L:=Lib) "latest" = None
  /\ spec_anchor (L:=Lib) "1.0.0" = Some (v 1 0 0)
  /\ anchor_verdict (L:=Lib) (spec_anchor "latest") (spec_anchor "1.0.0")
     = 1%Z
  /\ compare_npm_specs (L:=Lib) (VStr "latest") (VStr "1.0.0") = Ok 0%Z
  /\ compare_npm_specs (L:=Lib) (VStr "latest") (VStr "1.0.0")
     <> Ok (anchor_verdict (L:=Lib) (spec_anchor "latest")
              (spec_anchor "1.0.0")).
Proof.
  repeat split; try reflexivity. vm_compute. discriminate.
Qed.


(** C6 on the examples of the specification. *)
Lemma merge_dependency_versions_rules_witness :
  NpmSpec_has_range Lib
  /\ merge_dependency_versions (L:=Lib) (VStr "*") (VStr "^2.0.0")
     = Ok (VStr "^2.0.0")
  /\ merge_dependency_versions (L:=Lib) (VStr "^2.0.0") (VStr "latest")
     = Ok (VStr "^2.0.0")
  /\ merge_dependency_versions (L:=Lib) (VStr "file:../local")
       (VStr "^2.0.0")
     = Ok (VStr "^2.0.0")
  /\ merge_dependency_versions (L:=Lib) (VStr "^2.0.0")
       (VStr "git+https://x")
     = Ok (VStr "git+https://x").
Proof.
  split; [exact PlainSemver_has_range|].
  split; [|split; [|split]].
  - destruct (merge_dependency_versions_rules (L:=Lib)
                PlainSemver_has_range "*" "^2.0.0") as (H & _).
    apply H; reflexivity.
  - destruct (merge_dependency_versions_rules (L:=Lib)
                PlainSemver_has_range "^2.0.0" "latest") as (_ & H & _).
    apply H; reflexivity.
  - destruct (merge_dependency_versions_rules (L:=Lib)
                PlainSemver_has_range "file:../local" "^2.0.0")
      as (_ & _ & H & _).
    apply H; reflexivity.
  - destruct (merge_dependency_versions_rules (L:=Lib)
                PlainSemver_has_range "^2.0.0" "git+https://x")
      as (_ & _ & H & _).
    apply H; reflexivity.
Defined.


(** C7 on the example of the specification: keys [a, b] merged with keys
    [b, c] give the keys [a, b, c]. *)
Lemma merge_dependencies_union_witness :
  exists res : dict string,
    merge_dependencies (L:=Lib)
      (VDict (str_values [("a", "^1.0.0"); ("b", "^1.0.0")]))
      (VDict (str_values [("b", "^1.1.0"); ("c", "^1.0.0")]))
    = Ok (VDict (str_values res))
    /\ dict_keys res = ["a"; "b"; "c"].
Proof.
  assert (Hnd : NoDup (dict_keys [("b", "^1.1.0"); ("c", "^1.0.0")])).
  { repeat constructor; cbn; intuition discriminate. }
  destruct (merge_dependencies_union Lib PlainSemver_has_range
              [("a", "^1.0.0"); ("b", "^1.0.0")]
              [("b", "^1.1.0"); ("c", "^1.0.0")] Hnd)
    as (res & Hrun & Hkeys & _).
  exists res. split; [exact Hrun | exact Hkeys].
Defined.

(** C8 on the example of the specification. *)
Lemma overrides_merge_by_identity_witness :
  exists merged : list pyvalue,
    _deep_merge_value (L:=Lib) "merge" "overrides"
      (VList [VDict [("files", VList [VStr "a"]); ("x", VInt 2)];
              VDict [("files", VList [VStr "b"]); ("x", VInt 3)]])
      [("overrides",
        VList [VDict [("files", VList [VStr "a"]); ("x", VInt 1)]])]
    = Ok [("overrides", VList merged)]
    /\ map identity merged = [Some "a"; Some "b"].
Proof.
  destruct (overrides_merge_by_identity Lib
              [("overrides",
                VList [VDict [("files", VList [VStr "a"]); ("x", VInt 1)]])]
              [VDict [("files", VList [VStr "a"]); ("x", VInt 1)]]
              [VDict [("files", VList [VStr "a"]); ("x", VInt 2)];
               VDict [("files", VList [VStr "b"]); ("x", VInt 3)]]
              eq_refl)
    as (merged & ids & Hrun & Hids & _).
  { repeat constructor. }
  exists merged. split; [exact Hrun|].
  pose proof Hrun as Hval. vm_compute in Hval.
  injection Hval as <-. reflexivity.
Defined.

(** C5 on the example of the specification: [3, 1, 2] merged with
    [2, 4] gives [1, 2, 3, 4]. *)
Lemma list_merge_sorts_witness :
  _deep_merge_value (L:=Lib) "merge" "keywords"
    (VList [VInt 2; VInt 4])
    [("keywords", VList [VInt 3; VInt 1; VInt 2])]
  = Ok [("keywords", VList [VInt 1; VInt 2; VInt 3; VInt 4])].
Proof.
  destruct (list_merge_sorts Lib "keywords"
              [("keywords", VList [VInt 3; VInt 1; VInt 2])]
              [VInt 3; VInt 1; VInt 2] [VInt 2; VInt 4]
              eq_refl)
    as (merged & Hrun & _).
  - discriminate.
  - reflexivity.
  - reflexivity.
  - pose proof Hrun as Hval. vm_compute in Hval.
    injection Hval as <-. exact Hrun.
Defined.

(** C5 as stated fails on nested lists: [[2]] merged with [[1]] cannot
    be hashed, yet the result is sorted, not the concatenation. *)
Lemma list_merge_nested_counterexample :
  spec_merge_lists [VList [VInt 2]] [VList [VInt 1]]
  = [VList [VInt 2]; VList [VInt 1]]
  /\ _deep_merge_value (L:=Lib) "merge" "keywords" (VList [VList [VInt 1]])
       [("keywords", VList [VList [VInt 2]])]
     = Ok [("keywords", VList [VList [VInt 1]; VList [VInt 2]])]
  /\ _deep_merge_value (L:=Lib) "merge" "keywords" (VList [VList [VInt 1]])
       [("keywords", VList [VList [VInt 2]])]
     <> Ok [("keywords",
             VList (spec_merge_lists [VList [VInt 2]] [VList [VInt 1]]))].
Proof.
  repeat split; try reflexivity. vm_compute. discriminate.
Qed.

End Examples.

(** * Further properties of the module *)

(** ** The range normalizer *)

Lemma replace_wildcards_get (s : string) (n : nat) :
  String.get n (PyStr.replace_char "X" "0" (PyStr.replace_char "x" "0" s))
  = option_map wildcard_to_zero (String.get n s).
Proof.
  revert n. induction s as [|c s IH]; intros n; cbn; [reflexivity|].
  destruct n as [|n]; [|apply IH].
  cbn. unfold wildcard_to_zero.
  destruct (Ascii.eqb_spec c "x") as [->|Hx]; [reflexivity|].
  cbn. reflexivity.
Qed.

Lemma replace_wildcards_fixed (s : string) :
  let t := PyStr.replace_char "X" "0" (PyStr.replace_char "x" "0" s) in
  PyStr.replace_char "X" "0" (PyStr.replace_char "x" "0" t) = t.
Proof.
  induction s as [|c s IH]; cbn; [reflexivity|].
  cbn in IH. rewrite IH. f_equal.
  destruct (Ascii.eqb_spec c "x") as [->|Hx]; [reflexivity|].
  destruct (Ascii.eqb_spec c "X") as [->|HX]; [reflexivity|].
  apply Ascii.eqb_neq in Hx, HX. rewrite Hx, HX. reflexivity.
Qed.

Lemma contains_char_false (c : ascii) (s : string) :
  (forall n, String.get n s <> Some c) ->
  PyStr.contains (String c EmptyString) s = false.
Proof.
  induction s as [|d s IH]; intros H; cbn; [reflexivity|].
  destruct (Ascii.ascii_dec c d) as [->|Hcd].
  - exfalso. apply (H 0%nat). reflexivity.
  - cbn. rewrite IH; [reflexivity|].
    intros n. apply (H (S n)).
Qed.

Section NormalizerFacts.
Context {L : SemverLib}.

(** X1.  [normalize_npm_version] returns a string for every string, and
    normalizing its result changes nothing more. *)
Theorem normalize_npm_version_idempotent (s : string) :
  exists t : string,
    normalize_npm_version (VStr s) = Ok (VStr t)
    /\ normalize_npm_version (VStr t) = Ok (VStr t).
Proof.
  exists (normalize_str s). rewrite !normalize_npm_version_str.
  split; [reflexivity|]. do 2 f_equal.
  assert (H : normalize_str s = s
              \/ normalize_str s
                 = PyStr.replace_char "X" "0" (PyStr.replace_char "x" "0" s)).
  { unfold normalize_str.
    destruct (existsb _ ["*"; "latest"; "next"; ""]); [auto|].
    destruct (has_protocol s); auto. }
  destruct H as [H|H].
  - rewrite H. exact H.
  - rewrite H. unfold normalize_str.
    destruct (existsb _ ["*"; "latest"; "next"; ""]); [reflexivity|].
    destruct (has_protocol _); [reflexivity|].
    apply replace_wildcards_fixed.
Qed.

(** X2.  A string that is a special token or holds a protocol marker
    passes through unchanged.  Any other string keeps its length and its
    characters, except that every [x] and [X] becomes [0]: the result
    holds no wildcard letter. *)
Theorem normalize_npm_version_rewrites_wildcards (s : string) :
  (existsb (String.eqb s) ["*"; "latest"; "next"; ""] || has_protocol s
   = true ->
   normalize_npm_version (VStr s) = Ok (VStr s))
  /\ (existsb (String.eqb s) ["*"; "latest"; "next"; ""] || has_protocol s
      = false ->
      exists t : string,
        normalize_npm_version (VStr s) = Ok (VStr t)
        /\ (forall n, String.get n t
                      = option_map wildcard_to_zero (String.get n s))
        /\ String.length t = String.length s
        /\ PyStr.contains "x" t = false
        /\ PyStr.contains "X" t = false).
Proof.
  rewrite normalize_npm_version_str. unfold normalize_str.
  destruct (existsb (String.eqb s) ["*"; "latest"; "next"; ""]);
    cbn [orb].
  - split; [reflexivity | discriminate].
  - destruct (has_protocol s).
    + split; [reflexivity | discriminate].
    + split; [discriminate|]. intros _.
      set (t := PyStr.replace_char "X" "0" (PyStr.replace_char "x" "0" s)).
      assert (Hget : forall n, String.get n t
                     = option_map wildcard_to_zero (String.get n s))
        by (intros n; apply replace_wildcards_get).
      exists t. split; [reflexivity|]. split; [exact Hget|].
      split; [|split].
      * subst t. clear Hget. induction s as [|c s IH]; cbn;
          [reflexivity | f_equal; exact IH].
      * apply contains_char_false. intros n. rewrite Hget.
        destruct (String.get n s) as [c|]; [|discriminate].
        cbn. unfold wildcard_to_zero.
        destruct (Ascii.eqb_spec c "x") as [->|Hx]; [discriminate|].
        destruct (Ascii.eqb c "X"); cbn; [discriminate|]. congruence.
      * apply contains_char_false. intros n. rewrite Hget.
        destruct (String.get n s) as [c|]; [|discriminate].
        cbn. unfold wildcard_to_zero.
        destruct (Ascii.eqb_spec c "X") as [->|HX];
          [rewrite orb_true_r; discriminate|].
        destruct (Ascii.eqb c "x"); cbn; [discriminate|]. congruence.
Qed.

End NormalizerFacts.

(** ** The operator prefix *)

Lemma prefix_1 (a c : ascii) (s : string) :
  prefix (String a EmptyString) (String c s) = Ascii.eqb a c.
Proof.
  cbn [prefix]. destruct (ascii_dec a c) as [->|H].
  - destruct s; rewrite Ascii.eqb_refl; reflexivity.
  - apply Ascii.eqb_neq in H. rewrite H. reflexivity.
Qed.

Lemma prefix_2 (a b c d : ascii) (s : string) :
  prefix (String a (String b EmptyString)) (String c (String d s))
  = Ascii.eqb a c && Ascii.eqb b d.
Proof.
  change (prefix (String a (String b EmptyString)) (String c (String d s)))
    with (if ascii_dec a c
          then prefix (String b EmptyString) (String d s) else false).
  rewrite prefix_1. destruct (ascii_dec a c) as [->|H].
  - rewrite Ascii.eqb_refl. reflexivity.
  - apply Ascii.eqb_neq in H. rewrite H. reflexivity.
Qed.

Lemma prefix_2_1 (a b c : ascii) :
  prefix (String a (String b EmptyString)) (String c EmptyString) = false.
Proof. cbn [prefix]. destruct (ascii_dec a c); reflexivity. Qed.

Lemma prefix_nil (a : ascii) (p : string) :
  prefix (String a p) EmptyString = false.
Proof. reflexivity. Qed.

Lemma prefix_empty (s : string) : prefix EmptyString s = true.
Proof. destruct s; reflexivity. Qed.

Ltac prefix_tests :=
  rewrite ?prefix_2, ?prefix_2_1, ?prefix_1, ?prefix_nil in *;
  repeat match goal with
    | H : context [Ascii.eqb ?a ?c] |- _ =>
        is_var c; destruct (Ascii.eqb_spec a c); subst
    | |- context [Ascii.eqb ?a ?c] =>
        is_var c; destruct (Ascii.eqb_spec a c); subst
    end;
  cbn in *.

(** X3.  [get_version_prefix] returns, for every string, an operator that
    [PREFIX_PRIORITY] knows; when some operator starts the string it
    returns the longest one that does ([>=] rather than [>]), and ["="]
    when none does. *)
Theorem get_version_prefix_longest (s : string) :
  exists op : string,
    get_version_prefix (VStr s) = Ok op
    /\ In op OPERATORS
    /\ dict_mem op PREFIX_PRIORITY = true
    /\ (forall o, In o OPERATORS -> prefix o s = true ->
                  prefix op s = true
                  /\ (String.length o <= String.length op)%nat)
    /\ ((forall o, In o OPERATORS -> prefix o s = false) -> op = "=").
Proof.
  exists (version_prefix s). split; [reflexivity|].
  assert (Hin : In (version_prefix s) OPERATORS).
  { unfold version_prefix, OPERATORS.
    repeat match goal with
      | |- context [if ?b then _ else _] => destruct b
      end; cbn; tauto. }
  split; [exact Hin|]. split.
  - unfold OPERATORS in Hin. cbn in Hin.
    decompose [or] Hin; try contradiction;
      match goal with H : _ = version_prefix s |- _ => rewrite <- H end;
      reflexivity.
  - split.
    + intros o Ho Hp. unfold OPERATORS in Ho. cbn [In] in Ho.
      unfold version_prefix.
      destruct s as [|c [|d s]];
        decompose [or] Ho; try contradiction; subst o;
        prefix_tests; rewrite ?prefix_empty in *;
        try discriminate; try congruence; split; auto.
    + intros Hnone. unfold version_prefix.
      rewrite (Hnone "^"), (Hnone "~"), (Hnone ">="), (Hnone "<="),
        (Hnone ">"), (Hnone "<"); cbn; auto 10.
      destruct (prefix "=" s); reflexivity.
Qed.

(** ** The walk of the clause tree *)

Lemma find_first_range_head {V : Type} (c : Clause V) :
  find_first_range c = hd_error (ranges_of c).
Proof.
  induction c as [| |op target|cs IH|cs IH] using Clause_induction;
    try reflexivity.
  - cbn. induction IH as [|c cs Hc _ IHcs]; [reflexivity|].
    rewrite Hc. destruct (ranges_of c); [exact IHcs | reflexivity].
  - cbn. induction IH as [|c cs Hc _ IHcs]; [reflexivity|].
    rewrite Hc. destruct (ranges_of c); [exact IHcs | reflexivity].
Qed.

Section ClauseWalk.
Context {L : SemverLib}.

(** X4.  [get_operator_from_range] and [_search_spec_clause_for_version]
    report the same node, the first range of the clause in depth-first
    order, at any depth of nesting; they fall back to ["="] and to no
    version exactly when the clause holds no range at all. *)
Theorem first_range_of_clause (c : Clause Version) :
  match ranges_of c with
  | (op, target) :: _ =>
      get_operator_from_range c = op
      /\ _search_spec_clause_for_version c = Some target
  | [] =>
      get_operator_from_range c = "="
      /\ _search_spec_clause_for_version c = None
  end.
Proof.
  unfold get_operator_from_range, _search_spec_clause_for_version.
  rewrite find_first_range_head.
  destruct (ranges_of c) as [|[op target] rest]; cbn; auto.
Qed.

End ClauseWalk.

(** ** The comparator and the version merger on any value *)

Lemma try_except_uncaught {A : Type} (body : result A) (a : A) (e : exn) :
  try_except body (Ok a) = Raise e -> body = Raise e /\ caught e = false.
Proof.
  unfold try_except. destruct body as [x|e']; [discriminate|].
  destruct (caught e') eqn:E; [discriminate|].
  intros [= <-]. auto.
Qed.

Lemma any_in_raises (needles : list string) (v : pyvalue) (e : exn) :
  Py.any_in needles v = Raise e -> e = TypeError.
Proof.
  induction needles as [|n rest IH]; cbn; [discriminate|].
  destruct v; cbn; try (intros [= <-]; reflexivity);
    match goal with
    | |- context [if ?b then _ else _] => destruct b
    end; try discriminate; exact IH.
Qed.

Section ComparatorFacts.
Context {L : SemverLib}.

(** On a string the anchor extraction returns, or raises IndexError from
    the blank text of the fallback. *)
Lemma extract_version_str_cases (c : Clause Version) (s : string) :
  (exists anchor, _extract_version_from_spec c (VStr s) = Ok anchor)
  \/ _extract_version_from_spec c (VStr s) = Raise IndexError.
Proof.
  unfold _extract_version_from_spec. cbn [Py.in_strs].
  destruct (existsb _ ["*"; "latest"; ""; "next"]); [eauto|].
  rewrite any_in_str. cbn [bind].
  destruct (existsb _ SPECIAL_PROTOCOLS); [eauto|].
  destruct (_search_spec_clause_for_version c); [eauto|].
  unfold version_from_text.
  match goal with
  | |- context [if PyStr.contains " " ?t then _ else _] =>
      destruct (PyStr.contains " " t)
  end.
  - unfold PyStr.first_token.
    match goal with
    | |- context [PyStr.lstrip ?t] => destruct (PyStr.lstrip t)
    end; cbn; [auto|].
    match goal with
    | |- context [Version_of_str ?t] => destruct (Version_of_str t)
    end; cbn; eauto.
  - cbn.
    match goal with
    | |- context [Version_of_str ?t] => destruct (Version_of_str t)
    end; cbn; eauto.
Qed.

Lemma compare_npm_specs_outcome (base_version update_version : pyvalue) :
  match compare_npm_specs base_version update_version with
  | Ok verdict => verdict = (-1)%Z \/ verdict = 0%Z \/ verdict = 1%Z
  | Raise e => caught e = false
  end.
Proof.
  destruct (compare_npm_specs base_version update_version) as [z|e] eqn:E.
  - unfold compare_npm_specs, try_except in E.
    destruct (range_spec base_version) as [bs|e1]; cbn [bind] in E;
      [|destruct (caught e1); [injection E as <-; auto | discriminate]].
    destruct (range_spec update_version) as [us|e1]; cbn [bind] in E;
      [|destruct (caught e1); [injection E as <-; auto | discriminate]].
    destruct (_extract_version_from_spec bs base_version) as [ba|e1];
      cbn [bind] in E;
      [|destruct (caught e1); [injection E as <-; auto | discriminate]].
    destruct (_extract_version_from_spec us update_version) as [ua|e1];
      cbn [bind] in E;
      [|destruct (caught e1); [injection E as <-; auto | discriminate]].
    destruct ba as [b|], ua as [u|]; try (injection E as <-; auto).
    destruct (Version_gt u b); [injection E as <-; auto|].
    destruct (Version_gt b u); injection E as <-; auto.
  - apply try_except_uncaught in E. apply E.
Qed.

(** Swapping the two strings negates the verdict. *)
Lemma compare_npm_specs_swap (base update : string) :
  (forall a b : Version, Version_gt a b = true -> Version_gt b a = false) ->
  match compare_npm_specs (VStr base) (VStr update) with
  | Ok verdict =>
      compare_npm_specs (VStr update) (VStr base) = Ok (- verdict)%Z
  | Raise e => compare_npm_specs (VStr update) (VStr base) = Raise e
  end.
Proof.
  intros Hasym.
  destruct (range_spec_str_cases base) as [[bs Hb] | Hb].
  2:{ rewrite !compare_npm_specs_failure; auto. }
  destruct (range_spec_str_cases update) as [[us Hu] | Hu].
  2:{ rewrite !compare_npm_specs_failure; auto. }
  destruct (extract_version_str_cases bs base) as [[ba Ha] | Ha];
    destruct (extract_version_str_cases us update) as [[ua Hv] | Hv].
  - rewrite (compare_npm_specs_anchors base update bs us ba ua Hb Hu Ha Hv).
    rewrite (compare_npm_specs_anchors update base us bs ua ba Hu Hb Hv Ha).
    f_equal. unfold anchor_verdict.
    destruct ba as [b|], ua as [u|]; try reflexivity.
    destruct (Version_gt u b) eqn:E1.
    + rewrite (Hasym u b E1). reflexivity.
    + destruct (Version_gt b u); reflexivity.
  - unfold compare_npm_specs. rewrite Hb, Hu. cbn [bind].
    rewrite Ha, Hv. reflexivity.
  - unfold compare_npm_specs. rewrite Hb, Hu. cbn [bind].
    rewrite Ha, Hv. reflexivity.
  - unfold compare_npm_specs. rewrite Hb, Hu. cbn [bind].
    rewrite Ha, Hv. reflexivity.
Qed.

(** X6.  Swapping the two strings negates the verdict of the comparator,
    when the order of versions is asymmetric; a string compared with
    itself ties. *)
Theorem compare_npm_specs_antisymmetric (base update : string) :
  (forall a b : Version, Version_gt a b = true -> Version_gt b a = false) ->
  match compare_npm_specs (VStr base) (VStr update) with
  | Ok verdict =>
      compare_npm_specs (VStr update) (VStr base) = Ok (- verdict)%Z
      /\ (base = update -> verdict = 0%Z)
  | Raise e => compare_npm_specs (VStr update) (VStr base) = Raise e
  end.
Proof.
  intros Hasym. pose proof (compare_npm_specs_swap base update Hasym) as Hswap.
  destruct (compare_npm_specs (VStr base) (VStr update)) as [z|e] eqn:E;
    [|exact Hswap].
  split; [exact Hswap|].
  intros <-. rewrite E in Hswap. injection Hswap as Hz. lia.
Qed.

Lemma merge_dependency_versions_outcome
    (base_version update_version : pyvalue) :
  match merge_dependency_versions base_version update_version with
  | Ok merged => merged = base_version \/ merged = update_version
  | Raise e => caught e = false
  end.
Proof.
  unfold merge_dependency_versions.
  destruct (_ && _); [auto|]. destruct (_ && _); [auto|].
  destruct (Py.any_in SPECIAL_PROTOCOLS base_version) as [pb|e] eqn:Eb;
    [|apply any_in_raises in Eb; subst; reflexivity].
  cbn [bind].
  assert (Hu : forall special : bool,
             match
               (if special then Ok update_version
                else
                  comparison <-
                    compare_npm_specs base_version update_version ;;
                  if (comparison >? 0)%Z then Ok update_version
                  else if (comparison <? 0)%Z then Ok base_version
                  else tie_break base_version update_version)
             with
             | Ok merged => merged = base_version \/ merged = update_version
             | Raise e => caught e = false
             end).
  { intros [|]; [auto|].
    pose proof (compare_npm_specs_outcome base_version update_version) as Hc.
    destruct (compare_npm_specs base_version update_version) as [z|e];
      cbn [bind]; [|exact Hc].
    destruct (z >? 0)%Z; [auto|]. destruct (z <? 0)%Z; [auto|].
    destruct (tie_break base_version update_version) as [r|e] eqn:Et.
    - unfold tie_break, try_except in Et.
      destruct (range_spec base_version) as [bs|e1]; cbn [bind] in Et;
        [|destruct (caught e1); [injection Et as <-; auto | discriminate]].
      destruct (range_spec update_version) as [us|e1]; cbn [bind] in Et;
        [|destruct (caught e1); [injection Et as <-; auto | discriminate]].
      destruct (get_version_prefix base_version) as [pb'|e1];
        cbn [bind] in Et;
        [|destruct (caught e1); [injection Et as <-; auto | discriminate]].
      destruct (get_version_prefix update_version) as [pu'|e1];
        cbn [bind] in Et;
        [|destruct (caught e1); [injection Et as <-; auto | discriminate]].
      injection Et as <-. destruct (_ >? _)%Z; auto.
    - apply try_except_uncaught in Et. apply Et. }
  destruct pb; cbn [bind]; [apply (Hu true)|].
  destruct (Py.any_in SPECIAL_PROTOCOLS update_version) as [pu|e] eqn:Eu;
    [|apply any_in_raises in Eu; subst; reflexivity].
  cbn [bind]. apply Hu.
Qed.

(** X5.  The comparator returns -1, 0 or 1 on any two values, and the
    only exceptions it lets through are those its [except] clause does
    not name. *)
Theorem compare_npm_specs_verdicts (base_version update_version : pyvalue) :
  match compare_npm_specs base_version update_version with
  | Ok verdict => verdict = (-1)%Z \/ verdict = 0%Z \/ verdict = 1%Z
  | Raise e => caught e = false
  end.
Proof. apply compare_npm_specs_outcome. Qed.

(** X7.  [merge_dependency_versions] returns one of its two arguments
    unchanged, whatever their types; and no ValueError or AttributeError
    leaves it: a range that cannot be parsed never aborts the merge. *)
Theorem merge_dependency_versions_returns_an_argument
    (base_version update_version : pyvalue) :
  match merge_dependency_versions base_version update_version with
  | Ok merged => merged = base_version \/ merged = update_version
  | Raise e => caught e = false
  end.
Proof. apply merge_dependency_versions_outcome. Qed.

(** A range merged with itself is returned. *)
Lemma merge_dependency_versions_same (HL : NpmSpec_has_range L) (s : string) :
  merge_dependency_versions (VStr s) (VStr s) = Ok (VStr s).
Proof.
  destruct (merge_dependency_versions_cases HL s s); assumption.
Qed.

End ComparatorFacts.

(** ** The dependency map merger on any value *)

Lemma dict_set_absent {A : Type} (d : dict A) (k : string) (v : A) :
  dict_get k d = None -> dict_set k v d = d ++ [(k, v)].
Proof.
  induction d as [|[k0 v0] d IH]; cbn; [reflexivity|].
  destruct (String.eqb k k0); [discriminate|].
  intros H. rewrite (IH H). reflexivity.
Qed.

Lemma dict_set_same {A : Type} (d : dict A) (k : string) (v : A) :
  dict_get k d = Some v -> dict_set k v d = d.
Proof.
  induction d as [|[k0 v0] d IH]; cbn; [discriminate|].
  destruct (String.eqb_spec k k0) as [->|Hk].
  - intros [= ->]. reflexivity.
  - intros H. rewrite (IH H). reflexivity.
Qed.

Lemma dict_get_app_absent {A : Type} (d e : dict A) (k : string) :
  dict_get k d = None -> dict_get k (d ++ e) = dict_get k e.
Proof.
  induction d as [|[k0 v0] d IH]; cbn; [reflexivity|].
  destruct (String.eqb k k0); [discriminate | exact IH].
Qed.

Section DependencyMapFacts.
Context {L : SemverLib}.

Lemma merge_dependencies_loop_disjoint (items res : dict pyvalue) :
  NoDup (dict_keys items) ->
  (forall k, In k (dict_keys items) -> dict_get k res = None) ->
  merge_dependencies_loop items res = Ok (res ++ items).
Proof.
  revert res. induction items as [|[p v] rest IH]; intros res Hnd Hfresh.
  - cbn. rewrite app_nil_r. reflexivity.
  - cbn in Hnd. inversion Hnd as [|? ? Hp Hnd']; subst.
    cbn [merge_dependencies_loop].
    rewrite (Hfresh p (or_introl eq_refl)).
    rewrite (dict_set_absent res p v (Hfresh p (or_introl eq_refl))).
    rewrite IH; [rewrite <- app_assoc; reflexivity | exact Hnd' |].
    intros k Hk.
    rewrite dict_get_app_absent by (apply Hfresh; right; exact Hk).
    cbn. destruct (String.eqb_spec k p) as [->|]; [contradiction|].
    reflexivity.
Qed.

Lemma merge_dependencies_loop_raises (items res : dict pyvalue) (e : exn) :
  merge_dependencies_loop items res = Raise e -> caught e = false.
Proof.
  revert res. induction items as [|[p v] rest IH]; intros res;
    cbn [merge_dependencies_loop]; [discriminate|].
  destruct (dict_get p res) as [cur|]; [|apply IH].
  pose proof (merge_dependency_versions_outcome cur v) as Hm.
  destruct (merge_dependency_versions cur v) as [m|e']; cbn [bind];
    [apply IH|].
  intros [= <-]. exact Hm.
Qed.

Lemma merge_dependencies_loop_same (HL : NpmSpec_has_range L)
    (items res : dict string) :
  (forall k v, In (k, v) items -> dict_get k res = Some v) ->
  merge_dependencies_loop (str_values items) (str_values res)
  = Ok (str_values res).
Proof.
  induction items as [|[p v] rest IH]; intros Hin; [reflexivity|].
  cbn [str_values map merge_dependencies_loop fst snd].
  rewrite dict_get_str_values, (Hin p v (or_introl eq_refl)).
  cbn [option_map]. rewrite (merge_dependency_versions_same HL v).
  cbn [bind]. rewrite dict_set_str_values.
  rewrite (dict_set_same res p v (Hin p v (or_introl eq_refl))).
  apply IH. intros k w Hk. apply Hin. right. exact Hk.
Qed.

(** X8.  Two mappings without a common key are concatenated: the values
    of new packages are copied without being looked at, so nothing is
    raised, whatever their types. *)
Theorem merge_dependencies_disjoint (base updates : dict pyvalue) :
  NoDup (dict_keys updates) ->
  (forall k, In k (dict_keys updates) -> dict_mem k base = false) ->
  merge_dependencies (VDict base) (VDict updates)
  = Ok (VDict (base ++ updates)).
Proof.
  intros Hnd Hfresh. cbn [merge_dependencies].
  rewrite merge_dependencies_loop_disjoint; [reflexivity | exact Hnd |].
  intros k Hk. apply dict_mem_false, Hfresh, Hk.
Qed.

(** X9.  [merge_dependencies] raises AttributeError exactly when the
    update is not an object or the base is neither an object nor an
    array. *)
Theorem merge_dependencies_attribute_error (base updates : pyvalue) :
  merge_dependencies base updates = Raise AttributeError
  <-> (match updates with VDict _ => False | _ => True end
       \/ match base with VDict _ | VList _ => False | _ => True end).
Proof.
  split.
  - destruct base as [| | | |items|b]; try (intros _; right; exact I);
      destruct updates as [| | | |uitems|u]; try (intros _; left; exact I);
      cbn [merge_dependencies].
    + destruct u; discriminate.
    + destruct (merge_dependencies_loop u b) as [r|e] eqn:E;
        cbn [bind]; [discriminate|].
      intros [= ->]. apply merge_dependencies_loop_raises in E.
      discriminate.
  - intros [H|H].
    + destruct base, updates; try contradiction; reflexivity.
    + destruct base; try contradiction; reflexivity.
Qed.

(** X10.  A dependency mapping merged with itself is returned unchanged. *)
Theorem merge_dependencies_idempotent (HL : NpmSpec_has_range L)
    (d : dict string) :
  NoDup (dict_keys d) ->
  merge_dependencies (VDict (str_values d)) (VDict (str_values d))
  = Ok (VDict (str_values d)).
Proof.
  intros Hnd. cbn [merge_dependencies].
  rewrite (merge_dependencies_loop_same HL d d); [reflexivity|].
  intros k v Hin. apply dict_In_get; assumption.
Qed.

End DependencyMapFacts.

(** ** The deep merger on whole documents *)

Lemma unique_keys_NoDup {A : Type} (d : dict A) :
  unique_keys d = true <-> NoDup (dict_keys d).
Proof.
  induction d as [|[k v] d IH]; cbn.
  - split; [constructor | reflexivity].
  - rewrite andb_true_iff, negb_true_iff, IH. split.
    + intros [Hk Hd]. constructor; [|exact Hd].
      intros Hin. apply dict_mem_In in Hin. congruence.
    + intros H. inversion H as [|? ? Hk Hd]; subst. split; [|exact Hd].
      destruct (dict_mem k d) eqn:E; [|reflexivity].
      apply dict_mem_In in E. contradiction.
Qed.

Lemma dependency_mapping_strs (v : pyvalue) :
  dependency_mapping v = true ->
  exists d : dict string, NoDup (dict_keys d) /\ v = VDict (str_values d).
Proof.
  destruct v as [| | | | |entries]; try discriminate. cbn.
  rewrite andb_true_iff. intros [Hu Hs].
  assert (Hd : exists d : dict string, entries = str_values d).
  { clear Hu. induction entries as [|[k x] es IH].
    - exists []. reflexivity.
    - cbn in Hs. apply andb_true_iff in Hs. destruct Hs as [Hx Hs].
      destruct x; try discriminate.
      destruct (IH Hs) as [d ->]. exists ((k, s) :: d). reflexivity. }
  destruct Hd as [d ->]. exists d. split; [|reflexivity].
  apply unique_keys_NoDup in Hu.
  unfold dict_keys, str_values in Hu. rewrite map_map in Hu. exact Hu.
Qed.

Section DeepMergeDocuments.
Context {L : SemverLib}.

(** Two objects under a key that is no dependency key: the value becomes
    [deep_merge] of the two objects. *)
Lemma deep_merge_value_dicts (list_strategy key : string)
    (b u res : dict pyvalue) :
  is_dependency_key key = false ->
  dict_get key res = Some (VDict b) ->
  _deep_merge_value list_strategy key (VDict u) res
  = (merged <- deep_merge b u list_strategy ;;
     Ok (dict_set key (VDict merged) res)).
Proof.
  intros Hk Hget. cbn [_deep_merge_value]. rewrite Hget, Hk.
  unfold deep_merge. f_equal.
  clear Hget. revert b. induction u as [|[k v] rest IH]; intros b;
    [reflexivity|].
  cbn [deep_merge_loop].
  destruct (_deep_merge_value list_strategy k v b) as [acc|e];
    cbn [bind]; [apply IH | reflexivity].
Qed.

(** Under another strategy than [merge], an array replaces an array. *)
Lemma deep_merge_value_lists_replace (list_strategy key : string)
    (b u : list pyvalue) (res : dict pyvalue) :
  list_strategy <> "merge" ->
  is_dependency_key key = false ->
  dict_get key res = Some (VList b) ->
  _deep_merge_value list_strategy key (VList u) res
  = Ok (dict_set key (VList u) res).
Proof.
  intros Hs Hk Hget. cbn [_deep_merge_value]. rewrite Hget, Hk.
  apply String.eqb_neq in Hs. rewrite Hs. reflexivity.
Qed.

(** Whatever [_deep_merge_value] does, it sets the key it is given, and
    to the update itself when the key is new. *)
Lemma deep_merge_value_sets (list_strategy key : string) (value : pyvalue)
    (res res' : dict pyvalue) :
  _deep_merge_value list_strategy key value res = Ok res' ->
  exists v', res' = dict_set key v' res
             /\ (dict_get key res = None -> v' = value).
Proof.
  destruct (dict_get key res) as [base_val|] eqn:Hget.
  - destruct (is_dependency_key key) eqn:Hk.
    + rewrite (deep_merge_value_dependency _ _ _ _ _ Hk Hget).
      destruct (merge_dependencies base_val value) as [m|e]; cbn [bind];
        [|discriminate].
      intros [= <-]. exists m. split; [reflexivity | discriminate].
    + destruct value as [|vb|vn|vs|u|u]; cbn [_deep_merge_value];
        rewrite Hget, Hk;
        destruct base_val as [|bb|bn|bs|b|b];
        try (intros [= <-]; eexists; split; [reflexivity | discriminate]).
      * destruct (String.eqb list_strategy "merge");
          [|intros [= <-]; eexists; split; [reflexivity | discriminate]].
        destruct (String.eqb key "overrides").
        -- destruct (merge_overrides b u) as [m|e]; cbn [bind];
             [|discriminate].
           intros [= <-]. eexists. split; [reflexivity | discriminate].
        -- destruct (merge_lists b u) as [m|e]; cbn [bind];
             [|discriminate].
           intros [= <-]. eexists. split; [reflexivity | discriminate].
      * match goal with
        | |- context [bind ?inner _] => destruct inner as [m|e]
        end; cbn [bind]; [|discriminate].
        intros [= <-]. eexists. split; [reflexivity | discriminate].
  - rewrite (deep_merge_value_new _ _ _ _ Hget).
    intros [= <-]. exists value. auto.
Qed.

End DeepMergeDocuments.

Section DeepMergeTheorems.
Context {L : SemverLib}.

Lemma deep_merge_loop_keys (list_strategy : string) (items : dict pyvalue) :
  NoDup (dict_keys items) ->
  forall res res' : dict pyvalue,
    deep_merge_loop list_strategy items res = Ok res' ->
    dict_keys res'
    = dict_keys res
      ++ filter (fun k => negb (dict_mem k res)) (dict_keys items)
    /\ (forall k, dict_get k items = None ->
                  dict_get k res' = dict_get k res)
    /\ (forall k v, dict_get k items = Some v -> dict_get k res = None ->
                    dict_get k res' = Some v).
Proof.
  induction items as [|[p v] rest IH]; intros Hnd res res' Hrun.
  - cbn in Hrun. injection Hrun as <-. cbn. rewrite app_nil_r.
    repeat split; auto. discriminate.
  - cbn in Hnd. inversion Hnd as [|? ? Hp Hnd']; subst.
    assert (Hprest : dict_get p rest = None) by (apply dict_get_None, Hp).
    cbn [deep_merge_loop] in Hrun.
    destruct (_deep_merge_value list_strategy p v res) as [res1|e] eqn:Hstep;
      cbn [bind] in Hrun; [|discriminate].
    destruct (deep_merge_value_sets _ _ _ _ _ Hstep) as (v' & -> & Hnew).
    destruct (IH Hnd' _ _ Hrun) as (Hkeys & Hnone & Hsome).
    split; [|split].
    + rewrite Hkeys, dict_keys_set. cbn [dict_keys map fst filter].
      destruct (dict_mem p res) eqn:Hmem; cbn [negb].
      * f_equal. apply filter_ext. intros k. rewrite dict_mem_set.
        destruct (String.eqb_spec k p) as [E|E]; [|reflexivity].
        rewrite E, Hmem. reflexivity.
      * rewrite <- app_assoc. cbn [app]. do 2 f_equal.
        apply filter_ext_in. intros k Hk. rewrite dict_mem_set.
        destruct (String.eqb_spec k p) as [E|E]; [|reflexivity].
        exfalso. rewrite E in Hk. exact (Hp Hk).
    + intros k Hk. split_key k p Hk E; [discriminate|].
      rewrite (Hnone k Hk), dict_get_set, E. reflexivity.
    + intros k w Hk Hres. split_key k p Hk E.
      * injection Hk as <-.
        rewrite (Hnone p Hprest), dict_get_set, String.eqb_refl.
        rewrite (Hnew Hres). reflexivity.
      * apply (Hsome k w Hk). rewrite dict_get_set, E. exact Hres.
Qed.

Lemma deep_merge_loop_disjoint (list_strategy : string)
    (items res : dict pyvalue) :
  NoDup (dict_keys items) ->
  (forall k, In k (dict_keys items) -> dict_get k res = None) ->
  deep_merge_loop list_strategy items res = Ok (res ++ items).
Proof.
  revert res. induction items as [|[p v] rest IH]; intros res Hnd Hfresh.
  - cbn. rewrite app_nil_r. reflexivity.
  - cbn in Hnd. inversion Hnd as [|? ? Hp Hnd']; subst.
    cbn [deep_merge_loop].
    rewrite (deep_merge_value_new _ _ _ _ (Hfresh p (or_introl eq_refl))).
    cbn [bind].
    rewrite (dict_set_absent res p v (Hfresh p (or_introl eq_refl))).
    rewrite IH; [rewrite <- app_assoc; reflexivity | exact Hnd' |].
    intros k Hk.
    rewrite dict_get_app_absent by (apply Hfresh; right; exact Hk).
    cbn. destruct (String.eqb_spec k p) as [->|]; [contradiction|].
    reflexivity.
Qed.


(** X12.  Two documents without a common top-level key are concatenated,
    base first: nothing is merged and nothing raised, whatever the values
    and the list strategy.  In particular an empty base gives the update
    back. *)
Theorem deep_merge_disjoint (base updates : dict pyvalue)
    (list_strategy : string) :
  NoDup (dict_keys updates) ->
  (forall k, In k (dict_keys updates) -> dict_mem k base = false) ->
  deep_merge base updates list_strategy = Ok (base ++ updates).
Proof.
  intros Hnd Hfresh. unfold deep_merge.
  apply deep_merge_loop_disjoint; [exact Hnd|].
  intros k Hk. apply dict_mem_false, Hfresh, Hk.
Qed.

(** X13.  When [deep_merge] returns, the keys of the result are the keys
    of the base in their order followed by the new keys of the update in
    theirs; a key only the base has keeps its value, and a key only the
    update has takes the value of the update. *)
Theorem deep_merge_keys (base updates res : dict pyvalue)
    (list_strategy : string) :
  NoDup (dict_keys updates) ->
  deep_merge base updates list_strategy = Ok res ->
  dict_keys res
  = dict_keys base
    ++ filter (fun k => negb (dict_mem k base)) (dict_keys updates)
  /\ (forall k, dict_get k updates = None ->
                dict_get k res = dict_get k base)
  /\ (forall k v, dict_get k base = None -> dict_get k updates = Some v ->
                  dict_get k res = Some v).
Proof.
  intros Hnd Hrun.
  destruct (deep_merge_loop_keys list_strategy updates Hnd base res Hrun)
    as (Hkeys & Hnone & Hsome).
  split; [exact Hkeys|]. split; [exact Hnone|].
  intros k v Hb Hu. exact (Hsome k v Hu Hb).
Qed.

End DeepMergeTheorems.

Lemma well_formed_entries (entries : dict pyvalue) :
  well_formed (VDict entries) = true ->
  NoDup (dict_keys entries)
  /\ Forall (fun e => (if is_dependency_key (fst e)
                       then dependency_mapping (snd e)
                       else well_formed (snd e)) = true) entries.
Proof.
  cbn [well_formed]. rewrite andb_true_iff. intros [Hu Hgo].
  split; [apply unique_keys_NoDup, Hu|]. clear Hu.
  induction entries as [|[k x] es IH]; constructor.
  - apply andb_true_iff in Hgo. apply Hgo.
  - apply IH. apply andb_true_iff in Hgo. apply Hgo.
Qed.

Lemma no_dependency_key_entries (entries : dict pyvalue) :
  no_dependency_key (VDict entries) = true ->
  Forall (fun e => is_dependency_key (fst e) = false
                   /\ no_dependency_key (snd e) = true) entries.
Proof.
  cbn [no_dependency_key]. intros Hgo.
  induction entries as [|[k x] es IH]; constructor.
  - apply andb_true_iff in Hgo. destruct Hgo as [Hkx _].
    apply andb_true_iff in Hkx. destruct Hkx as [Hk Hx].
    apply negb_true_iff in Hk. auto.
  - apply IH. apply andb_true_iff in Hgo. apply Hgo.
Qed.

Section DeepMergeWhole.
Context {L : SemverLib}.

Lemma deep_merge_loop_same (list_strategy : string)
    (items res : dict pyvalue) :
  (forall k v, In (k, v) items ->
               _deep_merge_value list_strategy k v res = Ok res) ->
  deep_merge_loop list_strategy items res = Ok res.
Proof.
  induction items as [|[k v] rest IH]; intros Hstep; [reflexivity|].
  cbn [deep_merge_loop]. rewrite (Hstep k v (or_introl eq_refl)).
  cbn [bind]. apply IH. intros k' v' Hin. apply Hstep. right. exact Hin.
Qed.

Lemma deep_merge_loop_total (list_strategy : string) (items : dict pyvalue) :
  (forall k v, In (k, v) items ->
               forall res, exists res',
                 _deep_merge_value list_strategy k v res = Ok res') ->
  forall res, exists res', deep_merge_loop list_strategy items res = Ok res'.
Proof.
  induction items as [|[k v] rest IH]; intros Hstep res; [cbn; eauto|].
  cbn [deep_merge_loop].
  destruct (Hstep k v (or_introl eq_refl) res) as [res1 ->]. cbn [bind].
  apply IH. intros k' v' Hin. apply Hstep. right. exact Hin.
Qed.

(** A dependency mapping merged with itself under a dependency key. *)
Lemma deep_merge_value_dependency_same (HL : NpmSpec_has_range L)
    (list_strategy key : string) (v : pyvalue) (res : dict pyvalue) :
  is_dependency_key key = true ->
  dependency_mapping v = true ->
  dict_get key res = Some v ->
  _deep_merge_value list_strategy key v res = Ok res.
Proof.
  intros Hk Hv Hget.
  rewrite (deep_merge_value_dependency _ _ _ _ _ Hk Hget).
  destruct (dependency_mapping_strs v Hv) as (d & Hnd & ->).
  cbn [merge_dependencies].
  rewrite (merge_dependencies_loop_same HL d d);
    [|intros k w Hin; apply dict_In_get; assumption].
  cbn [bind]. rewrite (dict_set_same _ _ _ Hget). reflexivity.
Qed.

(** A well-formed value merged with itself under another key. *)
Lemma deep_merge_value_same (HL : NpmSpec_has_range L)
    (list_strategy : string) (v : pyvalue) :
  list_strategy <> "merge" ->
  well_formed v = true ->
  forall (key : string) (res : dict pyvalue),
    is_dependency_key key = false ->
    dict_get key res = Some v ->
    _deep_merge_value list_strategy key v res = Ok res.
Proof.
  intros Hs.
  induction v as [|b|n|s|items _|entries IH] using pyvalue_induction;
    intros Hwf key res Hk Hget;
    try (rewrite (deep_merge_value_replace _ _ _ _ _ Hk Hget I);
         rewrite (dict_set_same _ _ _ Hget); reflexivity).
  - rewrite (deep_merge_value_lists_replace _ _ _ _ _ Hs Hk Hget).
    rewrite (dict_set_same _ _ _ Hget). reflexivity.
  - rewrite (deep_merge_value_dicts _ _ _ _ _ Hk Hget).
    destruct (well_formed_entries entries Hwf) as [Hnd Hall].
    unfold deep_merge. rewrite deep_merge_loop_same.
    + cbn [bind]. rewrite (dict_set_same _ _ _ Hget). reflexivity.
    + intros k x Hin.
      rewrite Forall_forall in IH, Hall.
      specialize (IH (k, x) Hin). specialize (Hall (k, x) Hin).
      cbn [fst snd] in IH, Hall.
      pose proof (dict_In_get entries k x Hnd Hin) as Hkx.
      destruct (is_dependency_key k) eqn:Hdep.
      * apply (deep_merge_value_dependency_same HL); assumption.
      * apply IH; assumption.
Qed.

(** X14.  Under another strategy than [merge], a well-formed document
    merged with itself is returned unchanged. *)
Theorem deep_merge_idempotent (HL : NpmSpec_has_range L)
    (d : dict pyvalue) (list_strategy : string) :
  list_strategy <> "merge" ->
  well_formed (VDict d) = true ->
  deep_merge d d list_strategy = Ok d.
Proof.
  intros Hs Hwf.
  destruct (well_formed_entries d Hwf) as [Hnd Hall].
  unfold deep_merge. apply deep_merge_loop_same.
  intros k x Hin. rewrite Forall_forall in Hall.
  specialize (Hall (k, x) Hin). cbn [fst snd] in Hall.
  pose proof (dict_In_get d k x Hnd Hin) as Hkx.
  destruct (is_dependency_key k) eqn:Hdep.
  - apply (deep_merge_value_dependency_same HL); assumption.
  - apply (deep_merge_value_same HL); assumption.
Qed.

(** A value without dependency keys is merged without failure under a
    key that is no dependency key. *)
Lemma deep_merge_value_total (list_strategy : string) (v : pyvalue) :
  list_strategy <> "merge" ->
  no_dependency_key v = true ->
  forall (key : string) (res : dict pyvalue),
    is_dependency_key key = false ->
    exists res', _deep_merge_value list_strategy key v res = Ok res'.
Proof.
  intros Hs.
  assert (Hrep : forall key value res base_val,
             is_dependency_key key = false ->
             dict_get key res = Some base_val ->
             match base_val, value with
             | VDict _, VDict _ | VList _, VList _ => False
             | _, _ => True
             end ->
             exists res',
               _deep_merge_value list_strategy key value res = Ok res').
  { intros key value res base_val Hk Hget Hshape.
    rewrite (deep_merge_value_replace _ _ _ _ _ Hk Hget Hshape). eauto. }
  induction v as [|b|n|s|items _|entries IH] using pyvalue_induction;
    intros Hno key res Hk;
    (destruct (dict_get key res) as [base_val|] eqn:Hget;
     [|rewrite (deep_merge_value_new _ _ _ _ Hget); eauto]).
  - apply (Hrep _ _ _ base_val Hk Hget). destruct base_val; exact I.
  - apply (Hrep _ _ _ base_val Hk Hget). destruct base_val; exact I.
  - apply (Hrep _ _ _ base_val Hk Hget). destruct base_val; exact I.
  - apply (Hrep _ _ _ base_val Hk Hget). destruct base_val; exact I.
  - destruct base_val as [|bb|bn|bs|bl|bd];
      try (apply (Hrep _ _ _ _ Hk Hget); exact I).
    rewrite (deep_merge_value_lists_replace _ _ _ _ _ Hs Hk Hget). eauto.
  - destruct base_val as [|bb|bn|bs|bl|bd];
      try (apply (Hrep _ _ _ _ Hk Hget); exact I).
    rewrite (deep_merge_value_dicts _ _ _ _ _ Hk Hget).
    pose proof (no_dependency_key_entries entries Hno) as Hall.
    destruct (deep_merge_loop_total list_strategy entries) with (res := bd)
      as [merged Hm].
    + intros k x Hin. rewrite Forall_forall in IH, Hall.
      specialize (IH (k, x) Hin). destruct (Hall (k, x) Hin) as [Hkd Hx].
      intros res0. apply IH; assumption.
    + unfold deep_merge. rewrite Hm. cbn [bind]. eauto.
Qed.

(** X15.  Under another strategy than [merge], an update without
    dependency keys is merged into any base without raising. *)
Theorem deep_merge_total_without_dependencies (base updates : dict pyvalue)
    (list_strategy : string) :
  list_strategy <> "merge" ->
  no_dependency_key (VDict updates) = true ->
  exists res, deep_merge base updates list_strategy = Ok res.
Proof.
  intros Hs Hno. unfold deep_merge.
  apply deep_merge_loop_total.
  pose proof (no_dependency_key_entries updates Hno) as Hall.
  intros k x Hin res. rewrite Forall_forall in Hall.
  destruct (Hall (k, x) Hin) as [Hk Hx].
  apply deep_merge_value_total; assumption.
Qed.

End DeepMergeWhole.

(** ** Reading the files *)

Section FileFacts.
Context {L : SemverLib}.
Variable read_json : string -> result pyvalue.




Lemma merge_files_loop_app (xs ys : list string) (list_strategy : string) :
  forall (res : dict pyvalue) (reads : list string),
    merge_files_loop read_json (xs ++ ys) list_strategy res reads
    = match merge_files_loop read_json xs list_strategy res reads with
      | (Ok res', reads') =>
          merge_files_loop read_json ys list_strategy res' reads'
      | (Raise e, reads') => (Raise e, reads')
      end.
Proof.
  induction xs as [|f xs IH]; intros res reads; [reflexivity|].
  cbn [app merge_files_loop].
  destruct (load_package_json read_json f reads) as [[updates|e] reads1];
    [|reflexivity].
  destruct (deep_merge res updates list_strategy) as [res'|e];
    [apply IH | reflexivity].
Qed.

(** X17.  Merging a list of files equals merging a first batch of them and
    then merging the remaining files into the outcome; when the first
    batch fails, the remaining files are not touched. *)
Theorem merge_package_json_files_in_batches (first : string)
    (xs ys : list string) (list_strategy : string) (reads : list string) :
  merge_package_json_files read_json (first :: xs ++ ys) list_strategy reads
  = match merge_package_json_files read_json (first :: xs) list_strategy
            reads with
    | (Ok res, reads') =>
        merge_files_loop read_json ys list_strategy res reads'
    | (Raise e, reads') => (Raise e, reads')
    end.
Proof.
  cbn [merge_package_json_files].
  destruct (load_package_json read_json first reads) as [[res|e] reads1];
    [|reflexivity].
  apply merge_files_loop_app.
Qed.

End FileFacts.

(** ** Which entry stands for an identity in [overrides] *)

Lemma override_item_identity (item : pyvalue) (o : option string) :
  override_item item o -> identity item = o.
Proof. intros [entries files k _ _ _ H | H _]; exact H. Qed.

Lemma first_with_identity_found (k : string) (items : list pyvalue)
    (y : pyvalue) :
  first_with_identity k items = Some y -> In y items /\ identity y = Some k.
Proof.
  unfold first_with_identity. intros H. apply find_some in H.
  destruct H as [Hin Hk]. split; [exact Hin|].
  unfold has_identity in Hk. destruct (identity y) as [k'|]; [|discriminate].
  apply String.eqb_eq in Hk. subst. reflexivity.
Qed.

Lemma last_with_identity_found (k : string) (items : list pyvalue)
    (y : pyvalue) :
  last_with_identity k items = Some y -> In y items /\ identity y = Some k.
Proof.
  induction items as [|item rest IH]; cbn; [discriminate|].
  destruct (last_with_identity k rest) as [later|].
  - intros [= <-]. destruct (IH eq_refl) as [Hin Hk]. auto.
  - destruct (has_identity k item) eqn:E; [|discriminate].
    intros [= <-]. split; [auto|].
    unfold has_identity in E. destruct (identity item) as [k'|];
      [|discriminate].
    apply String.eqb_eq in E. subst. reflexivity.
Qed.

(** The first loop leaves, under every key, the last base entry of that
    identity. *)
Lemma overrides_add_base_get (items : list pyvalue) :
  Forall (fun x => files_well_formed x = true) items ->
  forall (acc acc' : dict pyvalue) (k : string),
    overrides_add_base items acc = Ok acc' ->
    dict_get k acc'
    = match last_with_identity k items with
      | Some item => Some item
      | None => dict_get k acc
      end.
Proof.
  induction 1 as [|item rest Hwf _ IH]; intros acc acc' k.
  - cbn. intros [= <-]. reflexivity.
  - destruct (override_item_cases item Hwf) as [o Ho].
    rewrite (overrides_add_base_step item rest acc o Ho).
    intros Hrun. rewrite (IH _ _ k Hrun). cbn [last_with_identity].
    destruct (last_with_identity k rest) as [later|]; [reflexivity|].
    unfold has_identity. rewrite (override_item_identity item o Ho).
    destruct o as [k0|]; [|reflexivity].
    rewrite dict_get_set, String.eqb_sym.
    destruct (String.eqb k0 k); reflexivity.
Qed.

(** The second loop adds, under a key that is not there, the first
    update entry of that identity. *)
Lemma overrides_add_update_get (items : list pyvalue) :
  Forall (fun x => files_well_formed x = true) items ->
  forall (acc acc' : dict pyvalue) (k : string),
    overrides_add_update items acc = Ok acc' ->
    dict_get k acc'
    = match dict_get k acc with
      | Some item => Some item
      | None => first_with_identity k items
      end.
Proof.
  induction 1 as [|item rest Hwf _ IH]; intros acc acc' k.
  - cbn. intros [= <-]. destruct (dict_get k acc); reflexivity.
  - destruct (override_item_cases item Hwf) as [o Ho].
    rewrite (overrides_add_update_step item rest acc o Ho).
    intros Hrun. rewrite (IH _ _ k Hrun).
    unfold first_with_identity. cbn [find].
    unfold has_identity at 2. rewrite (override_item_identity item o Ho).
    destruct o as [k0|]; [|reflexivity].
    destruct (dict_mem k0 acc) eqn:Hm.
    + destruct (dict_get k acc) eqn:Hk; [reflexivity|].
      destruct (String.eqb_spec k0 k) as [->|]; [|reflexivity].
      unfold dict_mem in Hm. rewrite Hk in Hm. discriminate.
    + rewrite dict_get_set, String.eqb_sym.
      destruct (String.eqb_spec k0 k) as [->|].
      * apply dict_mem_false in Hm. rewrite Hm. reflexivity.
      * reflexivity.
Qed.

(** X18.  Among the entries of one identity the merged [overrides] array
    keeps exactly one: the last such entry of the base array, and when
    the base has none the first such entry of the update array. *)
Theorem overrides_keep_last_base_first_update (L : SemverLib)
    (res : dict pyvalue) (base_val value : list pyvalue) :
  dict_get "overrides" res = Some (VList base_val) ->
  Forall (fun x => files_well_formed x = true) (base_val ++ value) ->
  exists merged : list pyvalue,
    _deep_merge_value "merge" "overrides" (VList value) res
    = Ok (dict_set "overrides" (VList merged) res)
    /\ forall (k : string) (y : pyvalue),
         In y merged /\ identity y = Some k
         <-> chosen_override k base_val value = Some y.
Proof.
  intros Hget Hwf. apply Forall_app in Hwf. destruct Hwf as [Hb Hu].
  destruct (overrides_add_base_spec base_val Hb [])
    as (acc1 & Hrun1 & Hnd1 & _).
  destruct (overrides_add_update_spec value Hu acc1)
    as (acc2 & Hrun2 & Hnd2 & _).
  assert (Hnodup : NoDup (dict_keys acc2))
    by (apply Hnd2, Hnd1; constructor).
  assert (Hacc : forall k, dict_get k acc2 = chosen_override k base_val value).
  { intros k. rewrite (overrides_add_update_get value Hu acc1 acc2 k Hrun2).
    rewrite (overrides_add_base_get base_val Hb [] acc1 k Hrun1).
    unfold chosen_override. cbn [dict_get].
    destruct (last_with_identity k base_val); reflexivity. }
  assert (Hid : forall k y, chosen_override k base_val value = Some y ->
                            identity y = Some k).
  { intros k y. unfold chosen_override.
    destruct (last_with_identity k base_val) as [item|] eqn:E.
    - intros [= <-]. apply (last_with_identity_found k base_val item E).
    - intros H. apply (first_with_identity_found k value y H). }
  exists (dict_values (sorted_items acc2)). split.
  - cbn [_deep_merge_value]. rewrite Hget.
    change (is_dependency_key "overrides") with false.
    cbn [String.eqb Ascii.eqb Bool.eqb]. unfold merge_overrides.
    rewrite Hrun1. cbn [bind]. rewrite Hrun2. reflexivity.
  - intros k y. split.
    + intros [Hin Hk]. apply in_map_iff in Hin.
      destruct Hin as ([k' y'] & E & Hin). cbn in E. subst y'.
      apply (Permutation_in _ (sort_by_perm item_ltb acc2)) in Hin.
      apply (dict_In_get acc2 k' y Hnodup) in Hin.
      rewrite Hacc in Hin. pose proof (Hid k' y Hin) as Hk'.
      assert (E : k' = k) by congruence. subst k'. exact Hin.
    + intros Hc. split; [|apply (Hid k y Hc)].
      rewrite <- Hacc in Hc. apply dict_get_In in Hc.
      apply (Permutation_in _ (Permutation_sym (sort_by_perm item_ltb acc2)))
        in Hc.
      apply in_map_iff. exists (k, y). auto.
Qed.

(** ** Arrays of strings under strategy [merge] *)

Lemma strs_hashable (names : list string) :
  forallb Py.hashable (map VStr names) = true.
Proof.
  apply forallb_forall. intros x Hx. apply in_map_iff in Hx.
  destruct Hx as (n & <- & _). reflexivity.
Qed.

Lemma filter_strs (f : string -> bool) (g : pyvalue -> bool)
    (names : list string) :
  (forall n, g (VStr n) = f n) ->
  filter g (map VStr names) = map VStr (filter f names).
Proof.
  intros Hfg. induction names as [|n names IH]; cbn; [reflexivity|].
  rewrite Hfg. destruct (f n); cbn; rewrite IH; reflexivity.
Qed.

(** The set of a list of strings holds the strings of the list. *)
Lemma dedup_strs (names : list string) :
  exists distinct : list string,
    Py.dedup (map VStr names) = map VStr distinct
    /\ forall x, In x distinct <-> In x names.
Proof.
  induction names as [|n names (distinct & Hd & Hin)].
  - exists []. cbn. split; [reflexivity | tauto].
  - exists (n :: filter (fun y => negb (String.eqb n y)) distinct).
    cbn [map Py.dedup]. rewrite Hd. split.
    + f_equal. apply filter_strs. reflexivity.
    + intros x. cbn. rewrite filter_In, Hin, negb_true_iff, String.eqb_neq.
      destruct (string_dec n x); tauto.
Qed.

Lemma StronglySorted_strs (names : list string) :
  StronglySorted (fun x y => Py.lt x y = Ok true) (map VStr names) ->
  StronglySorted (fun x y => String.ltb x y = true) names.
Proof.
  induction names as [|n names IH]; cbn; intros H; [constructor|].
  inversion H as [|? ? Hs Hall]; subst. constructor; [apply IH, Hs|].
  rewrite Forall_forall in *. intros x Hx.
  specialize (Hall (VStr x) (in_map VStr names x Hx)). cbn in Hall.
  congruence.
Qed.

Lemma str_ltb_asym (a b : string) :
  String.ltb a b = true -> String.ltb b a = false.
Proof.
  intros Hab. destruct (String.ltb b a) eqn:Hba; [|reflexivity].
  pose proof (str_ltb_trans a b a Hab Hba) as Haa.
  rewrite str_ltb_irrefl in Haa. discriminate.
Qed.

Lemma strict_sorted_NoDup (names : list string) :
  StronglySorted (fun x y => String.ltb x y = true) names -> NoDup names.
Proof.
  induction 1 as [|n names _ IH Hall]; constructor; [|exact IH].
  intros Hin. rewrite Forall_forall in Hall.
  specialize (Hall n Hin). rewrite str_ltb_irrefl in Hall. discriminate.
Qed.

(** Two ascending lists of the same strings are the same list. *)
Lemma sorted_strs_unique (l1 l2 : list string) :
  StronglySorted (fun x y => String.ltb x y = true) l1 ->
  StronglySorted (fun x y => String.ltb x y = true) l2 ->
  (forall x, In x l1 <-> In x l2) -> l1 = l2.
Proof.
  intros H1 H2 Hin. apply (strict_sorted_unique String.ltb); auto.
  - intros a b _ _. apply str_ltb_asym.
  - apply NoDup_Permutation; auto using strict_sorted_NoDup.
Qed.

Lemma merge_lists_strs (a b : list string) :
  exists merged : list string,
    merge_lists (map VStr a) (map VStr b) = Ok (map VStr merged)
    /\ StronglySorted (fun x y => String.ltb x y = true) merged
    /\ forall x, In x merged <-> In x a \/ In x b.
Proof.
  destruct (dedup_strs (a ++ b)) as (distinct & Hd & Hin).
  destruct (merge_lists_hashable (map VStr a) (map VStr b)) as [Hrun Hs].
  - rewrite <- map_app. apply strs_hashable.
  - rewrite <- map_app. apply all_comparable_strs.
  - rewrite <- map_app, Hd, sort_by_strs in Hrun, Hs.
    exists (sort_by String.ltb distinct).
    split; [exact Hrun|]. split; [apply StronglySorted_strs, Hs|].
    intros x. rewrite sort_by_In, Hin. apply in_app_iff.
Qed.

(** X19.  Under strategy [merge] two arrays of strings give the array of
    their distinct strings in ascending order; nothing is raised. *)
Theorem merge_lists_of_strings (a b : list string) :
  exists merged : list string,
    merge_lists (map VStr a) (map VStr b) = Ok (map VStr merged)
    /\ StronglySorted (fun x y => String.ltb x y = true) merged
    /\ forall x, In x merged <-> In x a \/ In x b.
Proof. apply merge_lists_strs. Qed.

(** X20.  On arrays of strings the list merge does not depend on which
    array comes from the base and which from the update. *)
Theorem merge_lists_of_strings_commutes (a b : list string) :
  merge_lists (map VStr a) (map VStr b)
  = merge_lists (map VStr b) (map VStr a).
Proof.
  destruct (merge_lists_strs a b) as (m1 & -> & Hs1 & Hin1).
  destruct (merge_lists_strs b a) as (m2 & -> & Hs2 & Hin2).
  do 2 f_equal. apply sorted_strs_unique; auto.
  intros x. rewrite Hin1, Hin2. tauto.
Qed.

(** X21.  Merging the outcome once more with either of the two arrays of
    strings changes nothing. *)
Theorem merge_lists_of_strings_absorbs (a b : list string)
    (merged : list pyvalue) :
  merge_lists (map VStr a) (map VStr b) = Ok merged ->
  merge_lists merged (map VStr b) = Ok merged
  /\ merge_lists (map VStr a) merged = Ok merged.
Proof.
  destruct (merge_lists_strs a b) as (m & -> & Hs & Hin).
  intros [= <-].
  destruct (merge_lists_strs m b) as (m1 & -> & Hs1 & Hin1).
  destruct (merge_lists_strs a m) as (m2 & -> & Hs2 & Hin2).
  split; do 2 f_equal; apply sorted_strs_unique; auto; intros x.
  - rewrite Hin1, Hin. tauto.
  - rewrite Hin2, Hin. tauto.
Qed.

(** ** When the order of the two ranges matters *)

Section MergeOrder.
Context {L : SemverLib}.

(** X22.  For two ranges that parse and hold no protocol marker, the
    version merger returns the same string in either order whenever the
    comparator or the operator priorities tell the two apart; on a
    complete tie each order keeps its own base. *)
Theorem merge_dependency_versions_order (base update : string)
    (bs us : Clause Version) :
  (forall a b : Version, Version_gt a b = true -> Version_gt b a = false) ->
  has_protocol base || has_protocol update = false ->
  range_spec (VStr base) = Ok bs ->
  range_spec (VStr update) = Ok us ->
  (compare_npm_specs (VStr base) (VStr update) <> Ok 0%Z
   \/ side_priority bs base <> side_priority us update ->
   merge_dependency_versions (VStr base) (VStr update)
   = merge_dependency_versions (VStr update) (VStr base))
  /\ (wildcard base = wildcard update ->
      compare_npm_specs (VStr base) (VStr update) = Ok 0%Z ->
      side_priority bs base = side_priority us update ->
      merge_dependency_versions (VStr base) (VStr update) = Ok (VStr base)
      /\ merge_dependency_versions (VStr update) (VStr base)
         = Ok (VStr update)).
Proof.
  intros Hasym Hp Hb Hu.
  assert (Hp' : has_protocol update || has_protocol base = false)
    by (rewrite orb_comm; exact Hp).
  pose proof (compare_npm_specs_swap base update Hasym) as Hswap.
  rewrite !merge_dependency_versions_str, Hp, Hp'.
  rewrite (tie_break_success base update bs us Hb Hu).
  rewrite (tie_break_success update base us bs Hu Hb).
  destruct (compare_npm_specs (VStr base) (VStr update)) as [c|e];
    rewrite Hswap; cbn [bind]; split.
  - intros Hdiff.
    destruct (wildcard base), (wildcard update); cbn [andb negb];
      try reflexivity;
      destruct (Z.gtb_spec c 0), (Z.ltb_spec c 0),
        (Z.gtb_spec (- c) 0), (Z.ltb_spec (- c) 0);
      try lia; try reflexivity;
      assert (c = 0%Z) by lia; subst c;
      destruct Hdiff as [Hdiff|Hdiff]; try congruence;
      destruct (Z.gtb_spec (side_priority us update) (side_priority bs base)),
        (Z.gtb_spec (side_priority bs base) (side_priority us update));
      try lia; reflexivity.
  - intros Hw [= ->] Hprio. rewrite Hw, Hprio, andb_negb_r. cbn.
    rewrite Z.gtb_ltb, Z.ltb_irrefl. auto.
  - intros _. destruct (wildcard base), (wildcard update); reflexivity.
  - intros _ H. discriminate.
Qed.

(** X23.  When the parser returns a clause for a string, the anchor of
    the comparison is the target of the first range of that clause, and
    nothing for a special token or a protocol string: the version is
    never read off the text of the range. *)
Theorem anchor_is_first_target (HL : NpmSpec_has_range L) (s : string)
    (c : Clause Version) :
  range_spec (VStr s) = Ok c ->
  exists (op : string) (target : Version),
    find_first_range c = Some (op, target)
    /\ _extract_version_from_spec c (VStr s)
       = Ok (if existsb (String.eqb s) ["*"; "latest"; ""; "next"]
                || has_protocol s
             then None else Some target).
Proof.
  rewrite range_spec_str. intros H.
  destruct (NpmSpec (normalize_str s)) as [c'|] eqn:E; [|discriminate].
  injection H as ->.
  destruct (find_first_range c) as [[op target]|] eqn:F.
  - exists op, target. split; [reflexivity|].
    apply (extract_version_found c s op target F).
  - exfalso. exact (HL _ _ E F).
Qed.

End MergeOrder.

(** ** Applying an update twice *)

Section UpdateTwice.
Context {L : SemverLib}.
Hypothesis HL : NpmSpec_has_range L.

(** The packages the loop does not meet keep their ranges. *)
Lemma merge_dependencies_loop_other (items : dict pyvalue) :
  forall (res res' : dict pyvalue) (k : string),
    dict_get k items = None ->
    merge_dependencies_loop items res = Ok res' ->
    dict_get k res' = dict_get k res.
Proof.
  induction items as [|[p v] rest IH]; intros res res' k Hk Hrun.
  - cbn in Hrun. injection Hrun as <-. reflexivity.
  - split_key k p Hk E; [discriminate|].
    cbn [merge_dependencies_loop] in Hrun.
    destruct (dict_get p res) as [cur|].
    + destruct (merge_dependency_versions cur v) as [m|e];
        cbn [bind] in Hrun; [|discriminate].
      rewrite (IH _ _ k Hk Hrun), dict_get_set, E. reflexivity.
    + rewrite (IH _ _ k Hk Hrun), dict_get_set, E. reflexivity.
Qed.

(** What the loop leaves under a package of the update: the range of the
    update, or the merge of some range with it. *)
Lemma merge_dependencies_loop_trace (items : dict pyvalue) :
  NoDup (dict_keys items) ->
  forall res res' : dict pyvalue,
    merge_dependencies_loop items res = Ok res' ->
    forall p v, In (p, v) items ->
      exists m,
        dict_get p res' = Some m
        /\ (m = v \/ exists cur, merge_dependency_versions cur v = Ok m).
Proof.
  induction items as [|[q w] rest IH]; intros Hnd res res' Hrun p v Hin;
    [contradiction|].
  cbn in Hnd. inversion Hnd as [|? ? Hq Hnd']; subst.
  assert (Hqrest : dict_get q rest = None) by (apply dict_get_None, Hq).
  cbn [merge_dependencies_loop] in Hrun.
  destruct Hin as [E|Hin].
  - injection E as -> ->.
    destruct (dict_get p res) as [cur|].
    + destruct (merge_dependency_versions cur v) as [m|e] eqn:Hm;
        cbn [bind] in Hrun; [|discriminate].
      exists m. split; [|right; eauto].
      rewrite (merge_dependencies_loop_other rest _ _ p Hqrest Hrun).
      rewrite dict_get_set, String.eqb_refl. reflexivity.
    + exists v. split; [|left; reflexivity].
      rewrite (merge_dependencies_loop_other rest _ _ p Hqrest Hrun).
      rewrite dict_get_set, String.eqb_refl. reflexivity.
  - destruct (dict_get q res) as [cur|].
    + destruct (merge_dependency_versions cur w) as [m|e];
        cbn [bind] in Hrun; [|discriminate].
      apply (IH Hnd' _ _ Hrun p v Hin).
    + apply (IH Hnd' _ _ Hrun p v Hin).
Qed.

(** A loop whose every step keeps the range it finds. *)
Lemma merge_dependencies_loop_fixed (items res : dict pyvalue) :
  (forall p v, In (p, v) items ->
     exists m, dict_get p res = Some m
               /\ merge_dependency_versions m v = Ok m) ->
  merge_dependencies_loop items res = Ok res.
Proof.
  induction items as [|[p v] rest IH]; intros H; [reflexivity|].
  cbn [merge_dependencies_loop].
  destruct (H p v (or_introl eq_refl)) as (m & Hget & Hm).
  rewrite Hget, Hm. cbn [bind]. rewrite (dict_set_same _ _ _ Hget).
  apply IH. intros q w Hin. apply H. right. exact Hin.
Qed.

(** The outcome of a merge with a range, merged with that range again. *)
Lemma merge_dependency_versions_absorbs (cur m : pyvalue) (s : string) :
  merge_dependency_versions cur (VStr s) = Ok m ->
  merge_dependency_versions m (VStr s) = Ok m.
Proof.
  intros H.
  pose proof (merge_dependency_versions_outcome cur (VStr s)) as Ho.
  rewrite H in Ho. destruct Ho as [->| ->]; [exact H|].
  apply (merge_dependency_versions_same HL).
Qed.

Lemma merge_dependencies_absorbs (base_val merged : pyvalue)
    (d : dict string) :
  NoDup (dict_keys d) ->
  merge_dependencies base_val (VDict (str_values d)) = Ok merged ->
  merge_dependencies merged (VDict (str_values d)) = Ok merged.
Proof.
  intros Hnd.
  assert (Hnd' : NoDup (dict_keys (str_values d))).
  { unfold dict_keys, str_values. rewrite map_map. exact Hnd. }
  destruct base_val as [| | | |items|b]; try discriminate;
    cbn [merge_dependencies].
  - destruct d as [|[k s] d']; cbn; [|discriminate].
    intros [= <-]. reflexivity.
  - destruct (merge_dependencies_loop (str_values d) b) as [res|e] eqn:Hrun;
      cbn [bind]; [|discriminate].
    intros [= <-]. cbn [merge_dependencies].
    rewrite merge_dependencies_loop_fixed; [reflexivity|].
    intros p v Hin.
    destruct (merge_dependencies_loop_trace _ Hnd' _ _ Hrun p v Hin)
      as (m & Hget & Hm).
    exists m. split; [exact Hget|].
    apply in_map_iff in Hin. destruct Hin as ([p' s] & E & _).
    cbn [fst snd] in E. injection E as <- <-.
    destruct Hm as [->|[cur Hcur]].
    + apply (merge_dependency_versions_same HL).
    + apply (merge_dependency_versions_absorbs cur), Hcur.
Qed.

(** A dependency key: the step that gave the value under the key leaves
    any dictionary with that value as it is. *)
Lemma deep_merge_value_dependency_absorbs (list_strategy key : string)
    (v : pyvalue) (r0 r1 r2 : dict pyvalue) :
  is_dependency_key key = true ->
  dependency_mapping v = true ->
  _deep_merge_value list_strategy key v r0 = Ok r1 ->
  dict_get key r2 = dict_get key r1 ->
  _deep_merge_value list_strategy key v r2 = Ok r2.
Proof.
  intros Hk Hv Hrun Hget.
  destruct (dict_get key r0) as [base_val|] eqn:H0.
  - rewrite (deep_merge_value_dependency _ _ _ _ _ Hk H0) in Hrun.
    destruct (merge_dependencies base_val v) as [merged|e] eqn:Hm;
      cbn [bind] in Hrun; [|discriminate].
    injection Hrun as <-. rewrite dict_get_set, String.eqb_refl in Hget.
    rewrite (deep_merge_value_dependency _ _ _ _ _ Hk Hget).
    destruct (dependency_mapping_strs v Hv) as (d & Hnd & ->).
    rewrite (merge_dependencies_absorbs base_val merged d Hnd Hm).
    cbn [bind]. rewrite (dict_set_same _ _ _ Hget). reflexivity.
  - rewrite (deep_merge_value_new _ _ _ _ H0) in Hrun. injection Hrun as <-.
    rewrite dict_get_set, String.eqb_refl in Hget.
    apply (deep_merge_value_dependency_same HL); assumption.
Qed.

(** Every entry of the update went through a step whose outcome under
    its key is what the loop returns under that key. *)
Lemma deep_merge_loop_trace (list_strategy : string) (items : dict pyvalue) :
  NoDup (dict_keys items) ->
  forall res res' : dict pyvalue,
    deep_merge_loop list_strategy items res = Ok res' ->
    forall k v, In (k, v) items ->
      exists r0 r1 : dict pyvalue,
        _deep_merge_value list_strategy k v r0 = Ok r1
        /\ dict_get k res' = dict_get k r1.
Proof.
  induction items as [|[q w] rest IH]; intros Hnd res res' Hrun k v Hin;
    [contradiction|].
  cbn in Hnd. inversion Hnd as [|? ? Hq Hnd']; subst.
  assert (Hqrest : dict_get q rest = None) by (apply dict_get_None, Hq).
  cbn [deep_merge_loop] in Hrun.
  destruct (_deep_merge_value list_strategy q w res) as [res1|e] eqn:Hstep;
    cbn [bind] in Hrun; [|discriminate].
  destruct Hin as [E|Hin].
  - injection E as -> ->. exists res, res1. split; [exact Hstep|].
    destruct (deep_merge_loop_keys list_strategy rest Hnd' res1 res' Hrun)
      as (_ & Hnone & _).
    apply Hnone, Hqrest.
  - apply (IH Hnd' _ _ Hrun k v Hin).
Qed.

Lemma deep_merge_loop_absorbs (list_strategy : string)
    (items : dict pyvalue) :
  NoDup (dict_keys items) ->
  (forall k v, In (k, v) items ->
     forall r0 r1 r2 : dict pyvalue,
       _deep_merge_value list_strategy k v r0 = Ok r1 ->
       dict_get k r2 = dict_get k r1 ->
       _deep_merge_value list_strategy k v r2 = Ok r2) ->
  forall res res' : dict pyvalue,
    deep_merge_loop list_strategy items res = Ok res' ->
    deep_merge_loop list_strategy items res' = Ok res'.
Proof.
  intros Hnd Habs res res' Hrun. apply deep_merge_loop_same.
  intros k v Hin.
  destruct (deep_merge_loop_trace list_strategy items Hnd res res' Hrun
              k v Hin) as (r0 & r1 & Hstep & Hget).
  apply (Habs k v Hin r0 r1 res' Hstep Hget).
Qed.

(** Another key: the same for a well-formed value. *)
Lemma deep_merge_value_absorbs (list_strategy : string) (v : pyvalue) :
  list_strategy <> "merge" ->
  well_formed v = true ->
  forall (key : string) (r0 r1 r2 : dict pyvalue),
    is_dependency_key key = false ->
    _deep_merge_value list_strategy key v r0 = Ok r1 ->
    dict_get key r2 = dict_get key r1 ->
    _deep_merge_value list_strategy key v r2 = Ok r2.
Proof.
  intros Hs.
  induction v as [|b|n|s|items _|entries IH] using pyvalue_induction;
    intros Hwf key r0 r1 r2 Hk Hrun Hget;
    match goal with
    | |- _deep_merge_value _ _ ?value _ = _ =>
        assert (Hset : r1 = dict_set key value r0 ->
                       _deep_merge_value list_strategy key value r2 = Ok r2)
    end;
    try (intros ->; rewrite dict_get_set, String.eqb_refl in Hget;
         apply (deep_merge_value_same HL); assumption);
    (destruct (dict_get key r0) as [base_val|] eqn:H0;
     [|apply Hset; rewrite (deep_merge_value_new _ _ _ _ H0) in Hrun;
       injection Hrun as <-; reflexivity]).
  - apply Hset. rewrite (deep_merge_value_replace _ _ _ _ _ Hk H0) in Hrun;
      [injection Hrun as <-; reflexivity | destruct base_val; exact I].
  - apply Hset. rewrite (deep_merge_value_replace _ _ _ _ _ Hk H0) in Hrun;
      [injection Hrun as <-; reflexivity | destruct base_val; exact I].
  - apply Hset. rewrite (deep_merge_value_replace _ _ _ _ _ Hk H0) in Hrun;
      [injection Hrun as <-; reflexivity | destruct base_val; exact I].
  - apply Hset. rewrite (deep_merge_value_replace _ _ _ _ _ Hk H0) in Hrun;
      [injection Hrun as <-; reflexivity | destruct base_val; exact I].
  - apply Hset. destruct base_val as [|bb|bn|bs|bl|bd];
      try (rewrite (deep_merge_value_replace _ _ _ _ _ Hk H0) in Hrun
             by exact I;
           injection Hrun as <-; reflexivity).
    rewrite (deep_merge_value_lists_replace _ _ _ _ _ Hs Hk H0) in Hrun.
    injection Hrun as <-. reflexivity.
  - destruct base_val as [|bb|bn|bs|bl|bd];
      try (apply Hset;
           rewrite (deep_merge_value_replace _ _ _ _ _ Hk H0) in Hrun
             by exact I;
           injection Hrun as <-; reflexivity).
    rewrite (deep_merge_value_dicts _ _ _ _ _ Hk H0) in Hrun.
    destruct (deep_merge bd entries list_strategy) as [merged|e] eqn:Hm;
      cbn [bind] in Hrun; [|discriminate].
    injection Hrun as <-. rewrite dict_get_set, String.eqb_refl in Hget.
    rewrite (deep_merge_value_dicts _ _ _ _ _ Hk Hget).
    destruct (well_formed_entries entries Hwf) as [Hnd Hall].
    unfold deep_merge in *.
    rewrite (deep_merge_loop_absorbs list_strategy entries Hnd) with (res := bd).
    + cbn [bind]. rewrite (dict_set_same _ _ _ Hget). reflexivity.
    + intros k x Hin. rewrite Forall_forall in IH, Hall.
      specialize (IH (k, x) Hin). specialize (Hall (k, x) Hin).
      cbn [fst snd] in IH, Hall.
      destruct (is_dependency_key k) eqn:Hdep.
      * intros q0 q1 q2. apply deep_merge_value_dependency_absorbs; assumption.
      * intros q0 q1 q2. apply IH; assumption.
    + exact Hm.
Qed.

(** X24.  Under another strategy than [merge], merging a well-formed
    update into the outcome of a merge with it changes nothing: applying
    the same update twice is applying it once, whatever the base is. *)
Theorem deep_merge_update_twice (base updates res : dict pyvalue)
    (list_strategy : string) :
  list_strategy <> "merge" ->
  well_formed (VDict updates) = true ->
  deep_merge base updates list_strategy = Ok res ->
  deep_merge res updates list_strategy = Ok res.
Proof.
  intros Hs Hwf Hrun.
  destruct (well_formed_entries updates Hwf) as [Hnd Hall].
  unfold deep_merge in *.
  apply (deep_merge_loop_absorbs list_strategy updates Hnd) with (res := base);
    [|exact Hrun].
  intros k x Hin. rewrite Forall_forall in Hall.
  specialize (Hall (k, x) Hin). cbn [fst snd] in Hall.
  destruct (is_dependency_key k) eqn:Hdep; intros q0 q1 q2.
  - apply deep_merge_value_dependency_absorbs; assumption.
  - apply deep_merge_value_absorbs; assumption.
Qed.

End UpdateTwice.

(** * Further examples *)

(** The order of the plain versions is asymmetric. *)
Lemma PlainSemver_gt_asym (a b : PlainSemver.version) :
  PlainSemver.gt a b = true -> PlainSemver.gt b a = false.
Proof.
  unfold PlainSemver.gt.
  rewrite (N.compare_antisym (PlainSemver.major a) (PlainSemver.major b)).
  rewrite (N.compare_antisym (PlainSemver.minor a) (PlainSemver.minor b)).
  destruct (N.compare (PlainSemver.major a) (PlainSemver.major b)); cbn;
    try discriminate; try reflexivity.
  destruct (N.compare (PlainSemver.minor a) (PlainSemver.minor b)); cbn;
    try discriminate; try reflexivity.
  intros H. apply N.ltb_lt in H. apply N.ltb_ge. lia.
Qed.

Module MoreExamples.

Import PlainSemver.

(** X2 at ["file:../x"] and at ["1.x.X"]. *)
Lemma normalize_npm_version_rewrites_wildcards_witness :
  normalize_npm_version (VStr "file:../x") = Ok (VStr "file:../x")
  /\ exists t : string,
       normalize_npm_version (VStr "1.x.X") = Ok (VStr t)
       /\ String.length t = 5%nat
       /\ PyStr.contains "x" t = false.
Proof.
  destruct (normalize_npm_version_rewrites_wildcards "file:../x")
    as [Hsame _].
  destruct (normalize_npm_version_rewrites_wildcards "1.x.X")
    as [_ Hzero].
  split; [apply Hsame; reflexivity|].
  destruct (Hzero eq_refl) as (t & Hrun & _ & Hlen & Hx & _).
  exists t. auto.
Defined.

(** X3 at [">=1.0.0"] and at ["1.0.0"]. *)
Lemma get_version_prefix_longest_witness :
  (exists op : string,
      get_version_prefix (VStr ">=1.0.0") = Ok op
      /\ (2 <= String.length op)%nat)
  /\ get_version_prefix (VStr "1.0.0") = Ok "=".
Proof.
  split.
  - destruct (get_version_prefix_longest ">=1.0.0")
      as (op & Hrun & _ & _ & Hlong & _).
    exists op. split; [exact Hrun|].
    apply (Hlong ">="); [cbn; tauto | reflexivity].
  - destruct (get_version_prefix_longest "1.0.0")
      as (op & Hrun & _ & _ & _ & Hnone).
    rewrite Hrun. f_equal. apply Hnone.
    intros o Hin. cbn in Hin.
    repeat (destruct Hin as [<-|Hin]; [reflexivity|]). contradiction.
Defined.

(** X6 at ["1.0.0"] against ["1.2.0"]. *)
Lemma compare_npm_specs_antisymmetric_witness :
  (forall a b : version, gt a b = true -> gt b a = false)
  /\ compare_npm_specs (L:=Lib) (VStr "1.2.0") (VStr "1.0.0") = Ok (-1)%Z.
Proof.
  split; [exact PlainSemver_gt_asym|].
  pose proof (compare_npm_specs_antisymmetric (L:=Lib) "1.0.0" "1.2.0"
                PlainSemver_gt_asym) as H.
  assert (E : compare_npm_specs (L:=Lib) (VStr "1.0.0") (VStr "1.2.0")
              = Ok 1%Z) by reflexivity.
  rewrite E in H. destruct H as [H _]. exact H.
Defined.

(** X8 on two mappings whose values are no strings. *)
Lemma merge_dependencies_disjoint_witness :
  merge_dependencies (L:=Lib) (VDict [("a", VInt 1)]) (VDict [("b", VNone)])
  = Ok (VDict [("a", VInt 1); ("b", VNone)]).
Proof.
  apply (merge_dependencies_disjoint (L:=Lib) [("a", VInt 1)]
           [("b", VNone)]).
  - repeat constructor. cbn. tauto.
  - intros k [<-|[]]. reflexivity.
Defined.

(** X10 on a mapping of two packages. *)
Lemma merge_dependencies_idempotent_witness :
  merge_dependencies (L:=Lib)
    (VDict (str_values [("a", "^1.0.0"); ("b", "latest")]))
    (VDict (str_values [("a", "^1.0.0"); ("b", "latest")]))
  = Ok (VDict (str_values [("a", "^1.0.0"); ("b", "latest")])).
Proof.
  apply (merge_dependencies_idempotent (L:=Lib) PlainSemver_has_range).
  repeat constructor; cbn; intuition discriminate.
Defined.


(** X12 on two documents without a common key. *)
Lemma deep_merge_disjoint_witness :
  deep_merge (L:=Lib) [("name", VStr "a")]
    [("dependencies", VBool true); ("keywords", VList [VInt 1; VStr "x"])]
    "merge"
  = Ok [("name", VStr "a"); ("dependencies", VBool true);
        ("keywords", VList [VInt 1; VStr "x"])].
Proof.
  apply (deep_merge_disjoint (L:=Lib) [("name", VStr "a")]
           [("dependencies", VBool true);
            ("keywords", VList [VInt 1; VStr "x"])] "merge").
  - repeat constructor; cbn; intuition discriminate.
  - intros k [<-|[<-|[]]]; reflexivity.
Defined.

(** X13 on two documents that share the key [version]. *)
Lemma deep_merge_keys_witness :
  dict_keys [("name", VStr "a"); ("version", VStr "2");
             ("license", VStr "MIT")]
  = ["name"; "version"; "license"]
  /\ deep_merge (L:=Lib) [("name", VStr "a"); ("version", VStr "1")]
       [("version", VStr "2"); ("license", VStr "MIT")] "replace"
     = Ok [("name", VStr "a"); ("version", VStr "2");
           ("license", VStr "MIT")].
Proof.
  assert (Hnd : NoDup (dict_keys [("version", VStr "2");
                                  ("license", VStr "MIT")])).
  { repeat constructor; cbn; intuition discriminate. }
  destruct (deep_merge_keys (L:=Lib)
              [("name", VStr "a"); ("version", VStr "1")]
              [("version", VStr "2"); ("license", VStr "MIT")]
              [("name", VStr "a"); ("version", VStr "2");
               ("license", VStr "MIT")] "replace" Hnd eq_refl)
    as [Hkeys _].
  split; [exact Hkeys | reflexivity].
Defined.

(** X14 on a document with dependencies, an object and an array. *)
Lemma deep_merge_idempotent_witness :
  deep_merge (L:=Lib)
    [("name", VStr "a");
     ("dependencies", VDict [("p", VStr "^1.0.0")]);
     ("scripts", VDict [("test", VStr "jest")]);
     ("keywords", VList [VStr "b"; VStr "a"])]
    [("name", VStr "a");
     ("dependencies", VDict [("p", VStr "^1.0.0")]);
     ("scripts", VDict [("test", VStr "jest")]);
     ("keywords", VList [VStr "b"; VStr "a"])]
    "replace"
  = Ok [("name", VStr "a");
        ("dependencies", VDict [("p", VStr "^1.0.0")]);
        ("scripts", VDict [("test", VStr "jest")]);
        ("keywords", VList [VStr "b"; VStr "a"])].
Proof.
  apply (deep_merge_idempotent (L:=Lib) PlainSemver_has_range).
  - discriminate.
  - reflexivity.
Defined.

(** X15 on an update whose values clash with the types of the base. *)
Lemma deep_merge_total_without_dependencies_witness :
  exists res : dict pyvalue,
    deep_merge (L:=Lib)
      [("name", VInt 1); ("scripts", VList [])]
      [("name", VDict []); ("scripts", VDict [("test", VNone)])]
      "replace"
    = Ok res.
Proof.
  apply (deep_merge_total_without_dependencies (L:=Lib)).
  - discriminate.
  - reflexivity.
Defined.

(** X18 on a base with two entries of identity [a]. *)
Lemma overrides_keep_last_base_first_update_witness :
  exists merged : list pyvalue,
    _deep_merge_value (L:=Lib) "merge" "overrides"
      (VList [VDict [("files", VList [VStr "a"]); ("x", VInt 3)];
              VDict [("files", VList [VStr "b"]); ("x", VInt 4)];
              VDict [("files", VList [VStr "b"]); ("x", VInt 5)]])
      [("overrides",
        VList [VDict [("files", VList [VStr "a"]); ("x", VInt 1)];
               VDict [("files", VList [VStr "a"]); ("x", VInt 2)]])]
    = Ok [("overrides", VList merged)]
    /\ In (VDict [("files", VList [VStr "a"]); ("x", VInt 2)]) merged
    /\ In (VDict [("files", VList [VStr "b"]); ("x", VInt 4)]) merged.
Proof.
  destruct (overrides_keep_last_base_first_update Lib
              [("overrides",
                VList [VDict [("files", VList [VStr "a"]); ("x", VInt 1)];
                       VDict [("files", VList [VStr "a"]); ("x", VInt 2)]])]
              [VDict [("files", VList [VStr "a"]); ("x", VInt 1)];
               VDict [("files", VList [VStr "a"]); ("x", VInt 2)]]
              [VDict [("files", VList [VStr "a"]); ("x", VInt 3)];
               VDict [("files", VList [VStr "b"]); ("x", VInt 4)];
               VDict [("files", VList [VStr "b"]); ("x", VInt 5)]]
              eq_refl)
    as (merged & Hrun & Hchosen).
  { repeat constructor. }
  exists merged. split; [exact Hrun|]. split.
  - apply (Hchosen "a"). reflexivity.
  - apply (Hchosen "b"). reflexivity.
Defined.

(** X21 on [["b"]] and [["a"]]. *)
Lemma merge_lists_of_strings_absorbs_witness :
  merge_lists [VStr "a"; VStr "b"] [VStr "a"] = Ok [VStr "a"; VStr "b"]
  /\ merge_lists [VStr "b"] [VStr "a"; VStr "b"] = Ok [VStr "a"; VStr "b"].
Proof.
  exact (merge_lists_of_strings_absorbs ["b"] ["a"] [VStr "a"; VStr "b"]
           eq_refl).
Defined.

(** X22 at [">1.0.0"] and [">=1.0.0"], which the priorities tell apart,
    and at ["1.0.0"] and ["=1.0.0"], which nothing does. *)
Lemma merge_dependency_versions_order_witness :
  merge_dependency_versions (L:=Lib) (VStr ">1.0.0") (VStr ">=1.0.0")
  = merge_dependency_versions (L:=Lib) (VStr ">=1.0.0") (VStr ">1.0.0")
  /\ merge_dependency_versions (L:=Lib) (VStr "1.0.0") (VStr "=1.0.0")
     = Ok (VStr "1.0.0")
  /\ merge_dependency_versions (L:=Lib) (VStr "=1.0.0") (VStr "1.0.0")
     = Ok (VStr "=1.0.0").
Proof.
  destruct (merge_dependency_versions_order (L:=Lib) ">1.0.0" ">=1.0.0"
              (AllOf [Range ">" (v 1 0 0)]) (AllOf [Range ">=" (v 1 0 0)])
              PlainSemver_gt_asym eq_refl eq_refl eq_refl)
    as [Hsame _].
  destruct (merge_dependency_versions_order (L:=Lib) "1.0.0" "=1.0.0"
              (AllOf [Range "==" (v 1 0 0)]) (AllOf [Range "==" (v 1 0 0)])
              PlainSemver_gt_asym eq_refl eq_refl eq_refl)
    as [_ Htie].
  split.
  - apply Hsame. right. vm_compute. discriminate.
  - apply Htie; reflexivity.
Defined.

(** X23 at ["^1.2.3"]. *)
Lemma anchor_is_first_target_witness :
  _extract_version_from_spec (L:=Lib)
    (AllOf [Range ">=" (v 1 2 3); Range "<" (v 2 0 0)]) (VStr "^1.2.3")
  = Ok (Some (v 1 2 3)).
Proof.
  destruct (anchor_is_first_target (L:=Lib) PlainSemver_has_range "^1.2.3"
              (AllOf [Range ">=" (v 1 2 3); Range "<" (v 2 0 0)]) eq_refl)
    as (op & target & Hfirst & Hrun).
  injection Hfirst as _ <-. exact Hrun.
Defined.

(** X24 on an update that raises a range, adds a package and replaces
    an array. *)
Lemma deep_merge_update_twice_witness :
  deep_merge (L:=Lib)
    [("name", VStr "a");
     ("dependencies", VDict [("p", VStr "^2.0.0"); ("q", VStr "*")]);
     ("keywords", VList [VStr "b"; VStr "a"])]
    [("dependencies", VDict [("p", VStr "^2.0.0"); ("q", VStr "*")]);
     ("keywords", VList [VStr "b"; VStr "a"])]
    "replace"
  = Ok [("name", VStr "a");
        ("dependencies", VDict [("p", VStr "^2.0.0"); ("q", VStr "*")]);
        ("keywords", VList [VStr "b"; VStr "a"])].
Proof.
  apply (deep_merge_update_twice (L:=Lib) PlainSemver_has_range
           [("name", VStr "a");
            ("dependencies", VDict [("p", VStr "^1.0.0")]);
            ("keywords", VList [VStr "c"])]).
  - discriminate.
  - reflexivity.
  - reflexivity.
Defined.

End MoreExamples.
